(** * The resample service

    A model of [src/resampleService.js]: the private tables and methods of
    [ResampleService] and its public method [resample], over the JavaScript
    values a JSON body can hold.  What the service takes from outside its own
    file is kept apart from it: the engine's conversions between numbers and
    texts are a [Host], the date library is a [DateFns]. *)

From Stdlib Require Import List String Ascii ZArith NArith Bool Lia Permutation Floats.
Import ListNotations.
Local Open Scope string_scope.
Local Open Scope list_scope.

(** ** JavaScript values *)

(** The primitive values of a parsed JSON body; [JUndefined] is what reading
    a missing array element gives.  Numbers are IEEE 754 binary64. *)
Inductive Value : Type :=
| JUndefined
| JNull
| JBool (b : bool)
| JNum (x : float)
| JStr (s : string).

(** The two conversions of the engine that involve number syntax. *)
Record Host : Type := {
  StringToNumber : string -> float;
  NumberToString : float -> string
}.

Definition ToNumber (host : Host) (v : Value) : float :=
  match v with
  | JUndefined => nan
  | JNull => zero
  | JBool true => one
  | JBool false => zero
  | JNum x => x
  | JStr s => StringToNumber host s
  end.

Definition ToString (host : Host) (v : Value) : string :=
  match v with
  | JUndefined => "undefined"
  | JNull => "null"
  | JBool true => "true"
  | JBool false => "false"
  | JNum x => NumberToString host x
  | JStr s => s
  end.

(** The global [isNaN]: it converts its argument before testing it. *)
Definition isNaN (host : Host) (v : Value) : bool := is_nan (ToNumber host v).

Definition is_neg_zero (x : float) : bool :=
  match classify x with NZero => true | _ => false end.

(** [Math.min] and [Math.max] on two numbers: NaN when either is NaN, and
    -0 below +0. *)
Definition min_number (a b : float) : float :=
  if is_nan a || is_nan b then nan
  else if (a <? b)%float then a
  else if (b <? a)%float then b
  else if is_neg_zero a then a else b.

Definition max_number (a b : float) : float :=
  if is_nan a || is_nan b then nan
  else if (a <? b)%float then b
  else if (b <? a)%float then a
  else if is_neg_zero a then b else a.

Definition Math_min (host : Host) (a b : Value) : Value :=
  JNum (min_number (ToNumber host a) (ToNumber host b)).

Definition Math_max (host : Host) (a b : Value) : Value :=
  JNum (max_number (ToNumber host a) (ToNumber host b)).

(** The operator [+] on primitives: concatenation as soon as one side is a
    text, addition of the converted sides otherwise. *)
Definition js_add (host : Host) (a b : Value) : Value :=
  match a, b with
  | JStr _, _ | _, JStr _ => JStr (ToString host a ++ ToString host b)
  | _, _ => JNum (ToNumber host a + ToNumber host b)
  end.

(** The operator [===]. *)
Definition strict_equal (a b : Value) : bool :=
  match a, b with
  | JUndefined, JUndefined | JNull, JNull => true
  | JBool x, JBool y => Bool.eqb x y
  | JNum x, JNum y => (x =? y)%float
  | JStr x, JStr y => String.eqb x y
  | _, _ => false
  end.

(** ** Exceptions *)

Inductive Exception : Type :=
| InvalidParameter (name : string)
| InvalidDate (dateRaw : string)
| InvalidValue (value : Value)
| TypeError (message : string).

(** The [message] of the thrown error, which the endpoint hands to its
    callback. *)
Definition message (host : Host) (e : Exception) : string :=
  match e with
  | InvalidParameter name => "Invalid " ++ name ++ " paramter"
  | InvalidDate dateRaw => "Invalid date: " ++ dateRaw
  | InvalidValue value => "Invalid value: " ++ ToString host value
  | TypeError m => m
  end.

Inductive Result (A : Type) : Type :=
| Return (a : A)
| Throw (e : Exception).
Arguments Return {A} a.
Arguments Throw {A} e.

Definition bind {A B : Type} (r : Result A) (k : A -> Result B) : Result B :=
  match r with
  | Return a => k a
  | Throw e => Throw e
  end.

Notation "x <- r ; k" := (bind r (fun x => k))
  (at level 61, r at next level, right associativity).
Notation "r ;; k" := (bind r (fun _ => k))
  (at level 61, right associativity).

(** ** Objects used as tables *)

(** The own properties of an object literal, in creation order. *)
Definition Obj (A : Type) : Type := list (string * A).

(** What every object literal inherits from [Object.prototype]. *)
Definition Object_prototype : list string :=
  [ "constructor"; "hasOwnProperty"; "isPrototypeOf"; "propertyIsEnumerable";
    "toLocaleString"; "toString"; "valueOf"; "__proto__";
    "__defineGetter__"; "__defineSetter__"; "__lookupGetter__"; "__lookupSetter__" ].

Definition inherited (key : string) : bool :=
  existsb (String.eqb key) Object_prototype.

Section Objects.
Context {A : Type}.

Fixpoint own_get (o : Obj A) (key : string) : option A :=
  match o with
  | [] => None
  | (k, a) :: rest => if String.eqb key k then Some a else own_get rest key
  end.

Definition hasOwnProperty (o : Obj A) (key : string) : bool :=
  match own_get o key with Some _ => true | None => false end.

(** The operator [in]: own properties and the prototype's. *)
Definition js_in (key : string) (o : Obj A) : bool :=
  hasOwnProperty o key || inherited key.

(** Assignment to [o[key]]: an own property keeps its place, a new one
    is created last. *)
Fixpoint own_set (o : Obj A) (key : string) (a : A) : Obj A :=
  match o with
  | [] => [(key, a)]
  | (k, b) :: rest =>
      if String.eqb key k then (k, a) :: rest else (k, b) :: own_set rest key a
  end.
End Objects.

(** Array indices are enumerated before the other keys, in ascending order. *)
Definition is_digit (c : ascii) : bool :=
  (48 <=? nat_of_ascii c)%nat && (nat_of_ascii c <=? 57)%nat.

Fixpoint digits_value (acc : N) (s : string) : option N :=
  match s with
  | EmptyString => Some acc
  | String c rest =>
      if is_digit c
      then digits_value (10 * acc + N.of_nat (nat_of_ascii c - 48)) rest
      else None
  end.

Definition array_index (key : string) : option N :=
  match key with
  | EmptyString => None
  | String c rest =>
      if Ascii.eqb c "0" then
        match rest with EmptyString => Some 0%N | _ => None end
      else
        match digits_value 0 key with
        | Some n => if (n <? 4294967295)%N then Some n else None
        | None => None
        end
  end.

Section Enumeration.
Context {A : Type}.

Fixpoint insert_by_index (n : N) (e : string * A) (l : list (N * (string * A))) :
  list (N * (string * A)) :=
  match l with
  | [] => [(n, e)]
  | (m, e') :: rest =>
      if (n <? m)%N then (n, e) :: l else (m, e') :: insert_by_index n e rest
  end.

Definition integer_keyed (o : Obj A) : list (N * (string * A)) :=
  fold_right (fun e acc =>
                match array_index (fst e) with
                | Some n => insert_by_index n e acc
                | None => acc
                end) [] o.

Definition string_keyed (o : Obj A) : Obj A :=
  filter (fun e => match array_index (fst e) with Some _ => false | None => true end) o.

(** The properties a [for (key in o)] loop visits, with their values. *)
Definition for_in (o : Obj A) : list (string * A) :=
  map snd (integer_keyed o) ++ string_keyed o.
End Enumeration.

(** ** Arrays *)

(** [values.reduce(f)]: the first element starts the fold, and there must be
    one. *)
Definition reduce (f : Value -> Value -> Value) (values : list Value) : Result Value :=
  match values with
  | [] => Throw (TypeError "Reduce of empty array with no initial value")
  | first :: rest => Return (fold_left f rest first)
  end.

(** [values.reduce(f, initial)]. *)
Definition reduce_from (f : Value -> Value -> Value) (values : list Value)
  (initial : Value) : Value :=
  fold_left f values initial.

(** ** The date library *)

(** A text that, used as a property name, is neither inherited by every
    object nor an array index. *)
Definition period_key (key : string) : bool :=
  negb (inherited key) &&
  match array_index key with Some _ => false | None => true end.

(** The functions of date-fns the service calls.  [invalid_date d] is the
    test [d.toString() === 'Invalid Date']; [format d] is
    [dateFns.format(d, 'YYYY-MM-DD')], whose results are date texts (or
    the text [Invalid Date]), hence period keys. *)
Record DateFns : Type := {
  Date : Type;
  parse : string -> Date;
  invalid_date : Date -> bool;
  lastDayOfMonth : Date -> Date;
  lastDayOfWeek : Date -> Date;
  lastDayOfQuarter : Date -> Date;
  lastDayOfYear : Date -> Date;
  format : Date -> string;
  format_period_key : forall d, period_key (format d) = true
}.

(** ** The service *)

(** The query parameters; [None] is [undefined]. *)
Record Params : Type := {
  resampleFrequency : option string;
  resampleFunction : option string
}.

(** A property name computed from a parameter: [undefined] names the
    property [undefined]. *)
Definition property_name (key : option string) : string :=
  match key with
  | Some s => s
  | None => "undefined"
  end.

Section Service.
Variable host : Host.
Variable dateFns : DateFns.

(** An entry [[dateRaw, value]] of the posted series, an entry
    [[date, value]] of the cleaned series, and an entry
    [[formattedDate, value]] of the later ones. *)
Definition RawPoint : Type := string * Value.
Definition Point : Type := Date dateFns * Value.
Definition KeyedPoint : Type := string * Value.

Definition FREQUENCY_OPTION_METHOD_INDEX : Obj (Date dateFns -> Date dateFns) :=
  [ ("monthEnd", lastDayOfMonth dateFns);
    ("weekEnd", lastDayOfWeek dateFns);
    ("quarterEnd", lastDayOfQuarter dateFns);
    ("yearEnd", lastDayOfYear dateFns) ].

Definition FUNCTION_OPTION_METHOD_INDEX : Obj (list Value -> Result Value) :=
  [ ("min", fun values => reduce (Math_min host) values);
    ("max", fun values => reduce (Math_max host) values);
    ("sum", fun values => Return (reduce_from (js_add host) values (JNum zero))) ].

Definition validateParams (params : Params) : Result unit :=
  match resampleFrequency params with
  | None => Throw (InvalidParameter "resampleFrequency")
  | Some frequency =>
      if negb (hasOwnProperty FREQUENCY_OPTION_METHOD_INDEX frequency)
      then Throw (InvalidParameter "resampleFrequency")
      else
        match resampleFunction params with
        | None => Throw (InvalidParameter "resampleFunction")
        | Some function =>
            if negb (hasOwnProperty FUNCTION_OPTION_METHOD_INDEX function)
            then Throw (InvalidParameter "resampleFunction")
            else Return tt
        end
  end.

(** The loop of [cleanTimeSeries], from the entries still to visit and
    the array built so far. *)
Fixpoint cleanTimeSeries_loop (timeseries : list RawPoint) (cleanedSeries : list Point) :
  Result (list Point) :=
  match timeseries with
  | [] => Return cleanedSeries
  | (dateRaw, value) :: rest =>
      let date := parse dateFns dateRaw in
      if invalid_date dateFns date then Throw (InvalidDate dateRaw)
      else if isNaN host value then Throw (InvalidValue value)
      else cleanTimeSeries_loop rest (cleanedSeries ++ [(date, value)])
  end.

Definition cleanTimeSeries (timeseries : list RawPoint) : Result (list Point) :=
  cleanTimeSeries_loop timeseries [].

(** The loop of [applyFrequency].  The method is looked up at each entry;
    after [validateParams] the name is an own property of the table. *)
Fixpoint applyFrequency_loop (resampleFrequency : option string)
  (timeseries : list Point) (updatedTimeSeries : list KeyedPoint) :
  Result (list KeyedPoint) :=
  match timeseries with
  | [] => Return updatedTimeSeries
  | (date, value) :: rest =>
      match own_get FREQUENCY_OPTION_METHOD_INDEX (property_name resampleFrequency) with
      | None => Throw (TypeError "changeFrequencyMethod is not a function")
      | Some changeFrequencyMethod =>
          let newDate := changeFrequencyMethod date in
          let formattedDate := format dateFns newDate in
          applyFrequency_loop resampleFrequency rest
            (updatedTimeSeries ++ [(formattedDate, value)])
      end
  end.

Definition applyFrequency (resampleFrequency : option string) (timeseries : list Point) :
  Result (list KeyedPoint) :=
  applyFrequency_loop resampleFrequency timeseries [].

(** The first loop of [applyFunction]: the groups, keyed by date text.
    A name that [in] finds on the prototype has no [push]. *)
Fixpoint group_loop (timeseries : list KeyedPoint) (frequencyGroups : Obj (list Value)) :
  Result (Obj (list Value)) :=
  match timeseries with
  | [] => Return frequencyGroups
  | (date, value) :: rest =>
      if js_in date frequencyGroups then
        match own_get frequencyGroups date with
        | Some valueGroup =>
            group_loop rest (own_set frequencyGroups date (valueGroup ++ [value]))
        | None => Throw (TypeError "frequencyGroups[date].push is not a function")
        end
      else group_loop rest (own_set frequencyGroups date [value])
  end.

(** The second loop of [applyFunction], over the enumerated groups. *)
Fixpoint reduce_loop (resampleFunction : option string)
  (groups : list (string * list Value)) (updatedTimeSeries : list KeyedPoint) :
  Result (list KeyedPoint) :=
  match groups with
  | [] => Return updatedTimeSeries
  | (dateKey, valueGroup) :: rest =>
      match own_get FUNCTION_OPTION_METHOD_INDEX (property_name resampleFunction) with
      | None => Throw (TypeError "resampleFunctionMethod is not a function")
      | Some resampleFunctionMethod =>
          resampledValue <- resampleFunctionMethod valueGroup ;
          reduce_loop resampleFunction rest
            (updatedTimeSeries ++ [(dateKey, resampledValue)])
      end
  end.

Definition applyFunction (resampleFunction : option string) (timeseries : list KeyedPoint) :
  Result (list KeyedPoint) :=
  frequencyGroups <- group_loop timeseries [] ;
  reduce_loop resampleFunction (for_in frequencyGroups) [].

(** The public method. *)
Definition resample (timeseries : list RawPoint) (resampleParams : Params) :
  Result (list KeyedPoint) :=
  validateParams resampleParams ;;
  cleanedSeries <- cleanTimeSeries timeseries ;
  newFrequencyTimeSeries <-
    applyFrequency (resampleFrequency resampleParams) cleanedSeries ;
  applyFunction (resampleFunction resampleParams) newFrequencyTimeSeries.

(** The POST endpoint, by what it hands to its callback: the error ([None]
    for [null]) and the [details] ([None] for [undefined]).  A request
    without a body has [None] for [ctx.body]. *)
Definition module_exports (body : option (list RawPoint)) (query : Params) :
  option string * option (list KeyedPoint) :=
  match body with
  | None => (Some "A timeseries must be provided via POST body", None)
  | Some timeseries =>
      match resample timeseries query with
      | Return resampledSeries => (None, Some resampledSeries)
      | Throw err => (Some (message host err), None)
      end
  end.
End Service.

(** ** A calendar for the date library *)

Module Calendar.
Local Open Scope Z_scope.

(** A calendar day of the proleptic Gregorian calendar, or the date
    object that prints as [Invalid Date]. *)
Inductive date : Type :=
| Invalid
| Day (year month day : Z).

Definition is_leap (y : Z) : bool :=
  (y mod 4 =? 0) && (negb (y mod 100 =? 0) || (y mod 400 =? 0)).

Definition days_in_month (y m : Z) : Z :=
  if m =? 2 then (if is_leap y then 29 else 28)
  else if (m =? 4) || (m =? 6) || (m =? 9) || (m =? 11) then 30
  else 31.

(** Days between 1970-01-01 and a calendar day, and back. *)
Definition days_from_civil (y m d : Z) : Z :=
  let y' := if m <=? 2 then y - 1 else y in
  let era := y' / 400 in
  let yoe := y' - era * 400 in
  let doy := (153 * (if 2 <? m then m - 3 else m + 9) + 2) / 5 + d - 1 in
  let doe := yoe * 365 + yoe / 4 - yoe / 100 + doy in
  era * 146097 + doe - 719468.

Definition civil_from_days (n : Z) : Z * Z * Z :=
  let z := n + 719468 in
  let era := z / 146097 in
  let doe := z - era * 146097 in
  let yoe := (doe - doe / 1460 + doe / 36524 - doe / 146096) / 365 in
  let doy := doe - (365 * yoe + yoe / 4 - yoe / 100) in
  let mp := (5 * doy + 2) / 153 in
  let d := doy - (153 * mp + 2) / 5 + 1 in
  let m := if mp <? 10 then mp + 3 else mp - 9 in
  ((if m <=? 2 then yoe + era * 400 + 1 else yoe + era * 400), m, d).

(** Sunday is 0; 1970-01-01 was a Thursday. *)
Definition weekday (y m d : Z) : Z := (days_from_civil y m d + 4) mod 7.

Definition digit_value (c : ascii) : option Z :=
  if is_digit c then Some (Z.of_nat (nat_of_ascii c) - 48) else None.

Definition number2 (a b : ascii) : option Z :=
  match digit_value a, digit_value b with
  | Some x, Some y => Some (10 * x + y)
  | _, _ => None
  end.

Definition number4 (a b c d : ascii) : option Z :=
  match number2 a b, number2 c d with
  | Some x, Some y => Some (100 * x + y)
  | _, _ => None
  end.

Definition calendar_day (y m d : Z) : date :=
  if (1 <=? m) && (m <=? 12) && (1 <=? d) && (d <=? days_in_month y m)
  then Day y m d
  else Invalid.

(** Modelled from the spec: [dateFns.parse] is not part of the sources.
    The spec has it read calendar date texts such as [2017-05-05] and
    refuse [2017-13-40]; this is the parser on the form of a four-digit
    year, a month and a day, any other text being unparsable.  The texts
    that the library reads besides are left out. *)
Definition parse (dateRaw : string) : date :=
  match list_ascii_of_string dateRaw with
  | [y1; y2; y3; y4; "-"%char; m1; m2; "-"%char; d1; d2] =>
      match number4 y1 y2 y3 y4, number2 m1 m2, number2 d1 d2 with
      | Some y, Some m, Some d => calendar_day y m d
      | _, _, _ => Invalid
      end
  | _ => Invalid
  end.

Definition invalid_date (d : date) : bool :=
  match d with Invalid => true | Day _ _ _ => false end.

(** Modelled from the spec: [dateFns.lastDayOfMonth] is not part of the
    sources; the last calendar day of the month of the date. *)
Definition lastDayOfMonth (d : date) : date :=
  match d with
  | Invalid => Invalid
  | Day y m _ => Day y m (days_in_month y m)
  end.

(** Modelled from the spec: [dateFns.lastDayOfWeek] is not part of the
    sources; the last day of the week of the date, the week running from
    Sunday to Saturday as the library has it when no option is given. *)
Definition lastDayOfWeek (d : date) : date :=
  match d with
  | Invalid => Invalid
  | Day y m dd =>
      let '(y', m', d') := civil_from_days (days_from_civil y m dd + (6 - weekday y m dd)) in
      Day y' m' d'
  end.

(** Modelled from the spec: [dateFns.lastDayOfQuarter] is not part of the
    sources; the last calendar day of the quarter of the date. *)
Definition lastDayOfQuarter (d : date) : date :=
  match d with
  | Invalid => Invalid
  | Day y m _ =>
      let m' := (m - 1) / 3 * 3 + 3 in
      Day y m' (days_in_month y m')
  end.

(** Modelled from the spec: [dateFns.lastDayOfYear] is not part of the
    sources; December 31 of the year of the date. *)
Definition lastDayOfYear (d : date) : date :=
  match d with
  | Invalid => Invalid
  | Day y _ _ => Day y 12 31
  end.

Definition digit (n : Z) : ascii := ascii_of_nat (48 + Z.to_nat (n mod 10)).

Fixpoint decimal (fuel : nat) (n : Z) (acc : string) : string :=
  match fuel with
  | O => acc
  | S fuel' =>
      let acc' := String (digit n) acc in
      if n / 10 =? 0 then acc' else decimal fuel' (n / 10) acc'
  end.

Definition two_digits (n : Z) : string :=
  String (digit (n / 10)) (String (digit n) EmptyString).

Definition four_digits (n : Z) : string :=
  if n <? 10000
  then (two_digits (n / 100) ++ two_digits n)%string
  else decimal 64 n EmptyString.

(** Modelled from the spec: [dateFns.format] is not part of the sources;
    the text of a day in the form [YYYY-MM-DD], and what an invalid date
    prints as. *)
Definition format (d : date) : string :=
  match d with
  | Invalid => "Invalid Date"
  | Day y m dd => (four_digits y ++ "-" ++ two_digits m ++ "-" ++ two_digits dd)%string
  end.
End Calendar.

(** ** A host for integer texts *)

Module IntegerHost.
Definition number_of_N (n : N) : float :=
  SF2Prim (binary_normalize prec emax (Z.of_N n) 0 false).

(** Exact on the empty text and on the texts made of decimal digits only.
    Any other text is answered NaN, as the engine does unless the text is
    another numeric literal (a sign, a fraction, an exponent, a radix
    prefix, [Infinity], surrounding white space). *)
Definition StringToNumber (s : string) : float :=
  match digits_value 0 s with
  | Some n => number_of_N n
  | None => nan
  end.

Definition integer_of (x : float) : option Z :=
  match Prim2SF x with
  | S754_zero _ => Some 0%Z
  | S754_finite s m e =>
      if (0 <=? e)%Z then Some (cond_Zopp s (Z.pos m * 2 ^ e))
      else if (Z.pos m mod 2 ^ (- e) =? 0)%Z then Some (cond_Zopp s (Z.pos m / 2 ^ (- e)))
      else None
  | _ => None
  end.

(** Exact on NaN, the infinities, the zeros and the integers below 10^21
    in magnitude; the other numbers are outside this host and answered
    with the empty text. *)
Definition NumberToString (x : float) : string :=
  match classify x with
  | NaN => "NaN"
  | PInf => "Infinity"
  | NInf => "-Infinity"
  | _ =>
      match integer_of x with
      | Some z =>
          if (Z.abs z <? 10 ^ 21)%Z then
            ((if (z <? 0)%Z then "-" else "") ++ Calendar.decimal 64 (Z.abs z) "")%string
          else ""
      | None => ""
      end
  end.

Definition host : Host :=
  Build_Host StringToNumber NumberToString.
End IntegerHost.

(** ** The calendar as a date library *)

Lemma list_ascii_of_string_app (a b : string) :
  list_ascii_of_string (a ++ b) = list_ascii_of_string a ++ list_ascii_of_string b.
Proof. induction a as [|c a IH]; simpl; [reflexivity|now rewrite IH]. Qed.

Lemma digits_value_digits (s : string) :
  forall acc n, digits_value acc s = Some n ->
    Forall (fun c => is_digit c = true) (list_ascii_of_string s).
Proof.
  induction s as [|c s IH]; simpl; intros acc n H; [constructor|].
  destruct (is_digit c) eqn:Hc; [|discriminate].
  constructor; eauto.
Qed.

Lemma array_index_digits (key : string) (n : N) :
  array_index key = Some n ->
  Forall (fun c => is_digit c = true) (list_ascii_of_string key).
Proof.
  destruct key as [|c rest]; cbv beta iota delta [array_index]; [discriminate|].
  destruct (Ascii.eqb_spec c "0") as [->|_].
  - destruct rest; [|discriminate]. intros _. now repeat constructor.
  - destruct (digits_value 0 (String c rest)) eqn:Hd; [|discriminate].
    intros _. exact (digits_value_digits _ _ _ Hd).
Qed.

(** A text with a hyphen is a period key. *)
Lemma hyphen_period_key (key : string) :
  In "-"%char (list_ascii_of_string key) -> period_key key = true.
Proof.
  intros Hin. unfold period_key. apply andb_true_iff. split.
  - apply negb_true_iff. destruct (inherited key) eqn:Hi; [|reflexivity].
    unfold inherited in Hi. apply existsb_exists in Hi as (name & Hname & E).
    apply String.eqb_eq in E. subst name. exfalso.
    simpl in Hname.
    repeat (destruct Hname as [<-|Hname];
            [simpl in Hin; repeat (destruct Hin as [Hin|Hin]; [discriminate Hin|]);
             exact Hin|]).
    exact Hname.
  - destruct (array_index key) eqn:Hi; [|reflexivity].
    apply array_index_digits in Hi. rewrite Forall_forall in Hi.
    specialize (Hi _ Hin). discriminate Hi.
Qed.

Lemma Calendar_format_period_key (d : Calendar.date) :
  period_key (Calendar.format d) = true.
Proof.
  destruct d as [|y m dd]; [reflexivity|].
  apply hyphen_period_key. unfold Calendar.format.
  rewrite list_ascii_of_string_app. apply in_or_app. right. now left.
Qed.

(** The date library that the closed examples run on. *)
Definition date_fns : DateFns :=
  {| Date := Calendar.date;
     parse := Calendar.parse;
     invalid_date := Calendar.invalid_date;
     lastDayOfMonth := Calendar.lastDayOfMonth;
     lastDayOfWeek := Calendar.lastDayOfWeek;
     lastDayOfQuarter := Calendar.lastDayOfQuarter;
     lastDayOfYear := Calendar.lastDayOfYear;
     format := Calendar.format;
     format_period_key := Calendar_format_period_key |}.

(** * Properties *)

(** ** The order behind [Math.min] and [Math.max] *)

(** A rank for the binary64 values: comparing ranks lexicographically is
    comparing the numbers, with -0 below +0 and NaN at the end that
    [nan_rank] chooses. *)
Definition rank (nan_rank : Z) (f : spec_float) : Z * Z * Z :=
  match f with
  | S754_nan => (nan_rank, 0, 0)
  | S754_infinity true => (-2, 0, 0)
  | S754_finite true m e => (-1, - e, Z.neg m)
  | S754_zero true => (0, -1, 0)
  | S754_zero false => (0, 1, 0)
  | S754_finite false m e => (1, e, Z.pos m)
  | S754_infinity false => (2, 0, 0)
  end%Z.

Definition lex_leb (a b : Z * Z * Z) : bool :=
  let '(a1, a2, a3) := a in
  let '(b1, b2, b3) := b in
  ((a1 <? b1) || ((a1 =? b1) && ((a2 <? b2) || ((a2 =? b2) && (a3 <=? b3)))))%Z.

Definition least (nan_rank : Z) (x y : spec_float) : spec_float :=
  if lex_leb (rank nan_rank x) (rank nan_rank y) then x else y.

Definition greatest (nan_rank : Z) (x y : spec_float) : spec_float :=
  if lex_leb (rank nan_rank x) (rank nan_rank y) then y else x.

Ltac Z_tests :=
  repeat match goal with
    | |- context [Z.ltb ?x ?y] => destruct (Z.ltb_spec x y)
    | |- context [Z.eqb ?x ?y] => destruct (Z.eqb_spec x y)
    | |- context [Z.leb ?x ?y] => destruct (Z.leb_spec x y)
    end;
  simpl; try reflexivity; try lia.

Ltac float_cases x y :=
  destruct x as [[|]|[|]| |[|] ?m ?e], y as [[|]|[|]| |[|] ?m ?e];
  cbn [rank SFclassify SFeqb SFltb SFcompare negb orb andb];
  rewrite ?Z.compare_refl, ?Pos.compare_cont_refl;
  try reflexivity.

Ltac finite_cases :=
  match goal with
  | |- context [Z.compare ?e ?e0] =>
      match goal with
      | |- context [PosDef.Pos.compare_cont Eq ?m ?m0] =>
          change (PosDef.Pos.compare_cont Eq) with Pos.compare;
          rewrite (Z.compare_antisym e e0), (Pos.compare_antisym m m0);
          destruct (Z.eqb _ prec);
          destruct (Z.compare_spec e e0), (Pos.compare_spec m m0); subst; simpl;
          unfold lex_leb; Z_tests
      end
  end.

Lemma Prim2SF_if (c : bool) (x y : float) :
  Prim2SF (if c then x else y) = if c then Prim2SF x else Prim2SF y.
Proof. now destruct c. Qed.

Lemma min_number_spec (a b : float) :
  Prim2SF (min_number a b) = least (-3) (Prim2SF a) (Prim2SF b).
Proof.
  unfold min_number, least, is_nan, is_neg_zero.
  rewrite !Prim2SF_if, !eqb_spec, !ltb_spec, classify_spec.
  change (Prim2SF nan) with S754_nan.
  generalize (Prim2SF a) (Prim2SF b); intros x y.
  unfold SF64classify.
  float_cases x y; finite_cases.
Qed.

Lemma max_number_spec (a b : float) :
  Prim2SF (max_number a b) = greatest 3 (Prim2SF a) (Prim2SF b).
Proof.
  unfold max_number, greatest, is_nan, is_neg_zero.
  rewrite !Prim2SF_if, !eqb_spec, !ltb_spec, classify_spec.
  change (Prim2SF nan) with S754_nan.
  generalize (Prim2SF a) (Prim2SF b); intros x y.
  unfold SF64classify.
  float_cases x y; finite_cases.
Qed.

Lemma rank_inj (n : Z) (x y : spec_float) :
  (n < -2 \/ 2 < n)%Z -> rank n x = rank n y -> x = y.
Proof.
  intros Hn H.
  destruct x as [[|]|[|]| |[|] m e], y as [[|]|[|]| |[|] m' e']; simpl in H;
    inversion H; subst; try reflexivity; try lia.
  f_equal; lia.
Qed.

Lemma lex_leb_total (a b : Z * Z * Z) : lex_leb a b = true \/ lex_leb b a = true.
Proof.
  destruct a as [[a1 a2] a3], b as [[b1 b2] b3]; unfold lex_leb.
  destruct (Z.ltb_spec a1 b1); [now left|].
  destruct (Z.ltb_spec b1 a1); [now right|].
  replace (a1 =? b1)%Z with true by (symmetry; apply Z.eqb_eq; lia).
  replace (b1 =? a1)%Z with true by (symmetry; apply Z.eqb_eq; lia).
  destruct (Z.ltb_spec a2 b2); [now left|].
  destruct (Z.ltb_spec b2 a2); [now right|].
  replace (a2 =? b2)%Z with true by (symmetry; apply Z.eqb_eq; lia).
  replace (b2 =? a2)%Z with true by (symmetry; apply Z.eqb_eq; lia).
  simpl. destruct (Z.leb_spec a3 b3); [now left|].
  right. apply Z.leb_le. lia.
Qed.

Lemma lex_leb_true (a b : Z * Z * Z) :
  lex_leb a b = true <->
  let '(a1, a2, a3) := a in
  let '(b1, b2, b3) := b in
  (a1 < b1 \/ (a1 = b1 /\ (a2 < b2 \/ (a2 = b2 /\ a3 <= b3))))%Z.
Proof.
  destruct a as [[a1 a2] a3], b as [[b1 b2] b3]; unfold lex_leb.
  rewrite !orb_true_iff, !andb_true_iff, !orb_true_iff, !andb_true_iff,
    !Z.ltb_lt, !Z.eqb_eq, Z.leb_le.
  reflexivity.
Qed.

Lemma lex_leb_antisym (a b : Z * Z * Z) :
  lex_leb a b = true -> lex_leb b a = true -> a = b.
Proof.
  rewrite !lex_leb_true.
  destruct a as [[a1 a2] a3], b as [[b1 b2] b3].
  intros H1 H2. repeat f_equal; lia.
Qed.

Lemma lex_leb_trans (a b c : Z * Z * Z) :
  lex_leb a b = true -> lex_leb b c = true -> lex_leb a c = true.
Proof.
  rewrite !lex_leb_true.
  destruct a as [[a1 a2] a3], b as [[b1 b2] b3], c as [[c1 c2] c3].
  lia.
Qed.

Lemma lex_leb_false (a b : Z * Z * Z) : lex_leb a b = false -> lex_leb b a = true.
Proof. destruct (lex_leb_total a b) as [H|H]; [congruence|auto]. Qed.

Section Selection.
Variable n : Z.
Hypothesis nan_outside : (n < -2 \/ 2 < n)%Z.

Ltac by_rank :=
  apply (rank_inj n); [exact nan_outside|];
  apply lex_leb_antisym; eauto using lex_leb_trans, lex_leb_false.

Lemma least_comm (x y : spec_float) : least n x y = least n y x.
Proof.
  unfold least.
  destruct (lex_leb (rank n x) (rank n y)) eqn:Hxy,
           (lex_leb (rank n y) (rank n x)) eqn:Hyx; try reflexivity; by_rank.
Qed.

Lemma least_assoc (x y z : spec_float) :
  least n (least n x y) z = least n x (least n y z).
Proof.
  unfold least.
  destruct (lex_leb (rank n x) (rank n y)) eqn:Hxy,
           (lex_leb (rank n y) (rank n z)) eqn:Hyz;
    rewrite ?Hxy, ?Hyz; try reflexivity.
  - rewrite (lex_leb_trans _ _ _ Hxy Hyz). reflexivity.
  - destruct (lex_leb (rank n x) (rank n z)) eqn:Hxz; try reflexivity.
    apply lex_leb_false in Hxy, Hyz.
    by_rank.
Qed.

Lemma greatest_comm (x y : spec_float) : greatest n x y = greatest n y x.
Proof.
  unfold greatest.
  destruct (lex_leb (rank n x) (rank n y)) eqn:Hxy,
           (lex_leb (rank n y) (rank n x)) eqn:Hyx; try reflexivity; by_rank.
Qed.

Lemma greatest_assoc (x y z : spec_float) :
  greatest n (greatest n x y) z = greatest n x (greatest n y z).
Proof.
  unfold greatest.
  destruct (lex_leb (rank n x) (rank n y)) eqn:Hxy,
           (lex_leb (rank n y) (rank n z)) eqn:Hyz;
    rewrite ?Hxy, ?Hyz; try reflexivity.
  - rewrite (lex_leb_trans _ _ _ Hxy Hyz). reflexivity.
  - destruct (lex_leb (rank n x) (rank n z)) eqn:Hxz; try reflexivity.
    apply lex_leb_false in Hxy, Hyz.
    by_rank.
Qed.
End Selection.

Lemma min_number_comm (a b : float) : min_number a b = min_number b a.
Proof.
  apply Prim2SF_inj. rewrite !min_number_spec. apply least_comm. lia.
Qed.

Lemma min_number_assoc (a b c : float) :
  min_number (min_number a b) c = min_number a (min_number b c).
Proof.
  apply Prim2SF_inj. rewrite !min_number_spec. apply least_assoc. lia.
Qed.

Lemma max_number_comm (a b : float) : max_number a b = max_number b a.
Proof.
  apply Prim2SF_inj. rewrite !max_number_spec. apply greatest_comm. lia.
Qed.

Lemma max_number_assoc (a b c : float) :
  max_number (max_number a b) c = max_number a (max_number b c).
Proof.
  apply Prim2SF_inj. rewrite !max_number_spec. apply greatest_assoc. lia.
Qed.

Lemma min_number_infinity (x : float) : min_number infinity x = x.
Proof.
  apply Prim2SF_inj. rewrite min_number_spec.
  change (Prim2SF infinity) with (S754_infinity false).
  unfold least. now destruct (Prim2SF x) as [[|]|[|]| |[|] m e].
Qed.

Lemma max_number_neg_infinity (x : float) : max_number neg_infinity x = x.
Proof.
  apply Prim2SF_inj. rewrite max_number_spec.
  change (Prim2SF neg_infinity) with (S754_infinity true).
  unfold greatest. now destruct (Prim2SF x) as [[|]|[|]| |[|] m e].
Qed.

(** Adding to +0 gives the number back, -0 apart. *)
Lemma add_zero_l (x : float) : is_neg_zero x = false -> (zero + x)%float = x.
Proof.
  unfold is_neg_zero. rewrite classify_spec. intros H.
  apply Prim2SF_inj. rewrite add_spec.
  change (Prim2SF zero) with (S754_zero false).
  destruct (Prim2SF x) as [[|]|[|]| |[|] m e]; try reflexivity; discriminate H.
Qed.

Lemma add_zero_l_equal (x : float) : is_nan x = false -> (zero + x =? x)%float = true.
Proof.
  intros Hx. destruct (is_neg_zero x) eqn:Hz.
  - assert (x = neg_zero) as ->; [|reflexivity].
    apply Prim2SF_inj. unfold is_neg_zero in Hz. rewrite classify_spec in Hz.
    unfold SF64classify, SFclassify in Hz.
    destruct (Prim2SF x) as [[|]|[|]| |[|] m e]; cbv beta iota in Hz;
      try discriminate Hz; try reflexivity;
      destruct (Z.eqb _ _); discriminate Hz.
  - rewrite add_zero_l by assumption.
    unfold is_nan in Hx. now destruct (x =? x)%float.
Qed.

(** ** Folds over rearranged arrays *)

Section Folds.
Context {A : Type}.
Variable op : A -> A -> A.
Hypothesis op_comm : forall x y, op x y = op y x.
Hypothesis op_assoc : forall x y z, op (op x y) z = op x (op y z).

Lemma fold_left_Permutation (l l' : list A) :
  Permutation l l' -> forall a, fold_left op l a = fold_left op l' a.
Proof.
  induction 1 as [|x l l' _ IH|x y l|l l' l'' _ IH1 _ IH2]; intros a; simpl.
  - reflexivity.
  - apply IH.
  - f_equal. rewrite !op_assoc. f_equal. apply op_comm.
  - rewrite IH1. apply IH2.
Qed.
End Folds.

(** ** Tables *)

Section ObjectFacts.
Context {A : Type}.
Implicit Types (o : Obj A) (key : string) (a : A).

Lemma own_get_own_set o key a key' :
  own_get (own_set o key a) key' =
  if String.eqb key' key then Some a else own_get o key'.
Proof.
  induction o as [|[k b] o IH]; simpl.
  - destruct (String.eqb_spec key' key); reflexivity.
  - destruct (String.eqb_spec key k) as [->|Hk]; simpl.
    + destruct (String.eqb_spec key' k); reflexivity.
    + rewrite IH.
      destruct (String.eqb_spec key' k) as [->|Hk']; [|reflexivity].
      destruct (String.eqb_spec k key); [congruence|reflexivity].
Qed.

Lemma own_get_In o key a : own_get o key = Some a -> In (key, a) o.
Proof.
  induction o as [|[k b] o IH]; simpl; [discriminate|].
  destruct (String.eqb_spec key k) as [->|Hk].
  - intros [= ->]. now left.
  - intros H. right. auto.
Qed.

Lemma own_get_None o key : own_get o key = None <-> ~ In key (map fst o).
Proof.
  induction o as [|[k b] o IH]; simpl; [tauto|].
  destruct (String.eqb_spec key k) as [->|Hk].
  - split; [discriminate|tauto].
  - rewrite IH. split; [intros H [E|E]; [congruence|tauto]|tauto].
Qed.

Lemma In_own_get o key a :
  NoDup (map fst o) -> In (key, a) o -> own_get o key = Some a.
Proof.
  induction o as [|[k b] o IH]; simpl; [tauto|].
  intros Hnd [E|Hin]; inversion Hnd as [|? ? Hk Hnd']; subst.
  - inversion E; subst. now rewrite String.eqb_refl.
  - destruct (String.eqb_spec key k) as [->|_]; [|auto].
    exfalso. apply Hk. change k with (fst (k, a)). now apply in_map.
Qed.

Lemma keys_own_set o key a :
  map fst (own_set o key a) =
  if hasOwnProperty o key then map fst o else map fst o ++ [key].
Proof.
  unfold hasOwnProperty.
  induction o as [|[k b] o IH]; simpl; [reflexivity|].
  destruct (String.eqb_spec key k) as [->|Hk]; simpl; [reflexivity|].
  rewrite IH. now destruct (own_get o key).
Qed.

Lemma NoDup_own_set o key a :
  NoDup (map fst o) -> NoDup (map fst (own_set o key a)).
Proof.
  intros Hnd. rewrite keys_own_set. unfold hasOwnProperty.
  destruct (own_get o key) eqn:Hget; [assumption|].
  apply own_get_None in Hget.
  apply NoDup_rev in Hnd. rewrite <- (rev_involutive (_ ++ _)), rev_app_distr.
  apply NoDup_rev. simpl. constructor; [|assumption].
  now rewrite <- in_rev.
Qed.

Lemma Forall_own_set (Q : A -> Prop) o key a :
  Forall (fun e => Q (snd e)) o -> Q a ->
  Forall (fun e => Q (snd e)) (own_set o key a).
Proof.
  intros Ho Ha. induction Ho as [|[k b] o Hb Ho IH]; simpl.
  - now repeat constructor.
  - destruct (String.eqb key k); constructor; auto.
Qed.

Lemma In_insert_by_index (n : N) (e : string * A) l x :
  In x (insert_by_index n e l) -> x = (n, e) \/ In x l.
Proof.
  induction l as [|[m e'] l IH]; simpl.
  - intros [<-|[]]. now left.
  - destruct (n <? m)%N; simpl.
    + intros [<-|H]; auto.
    + intros [<-|H]; auto. destruct (IH H); auto.
Qed.

Lemma In_integer_keyed o x : In x (integer_keyed o) -> In (snd x) o.
Proof.
  induction o as [|e o IH]; simpl; [tauto|].
  destruct (array_index (fst e)); [|auto].
  intros H. apply In_insert_by_index in H as [->|H]; auto.
Qed.

(** What a [for-in] loop visits are properties of the object. *)
Lemma for_in_incl o : incl (for_in o) o.
Proof.
  intros e. unfold for_in. rewrite in_app_iff, in_map_iff.
  intros [[x [<- Hx]]|H].
  - now apply In_integer_keyed.
  - unfold string_keyed in H. now apply filter_In in H.
Qed.

Lemma period_key_not_index key : period_key key = true -> array_index key = None.
Proof.
  unfold period_key. intros H. apply andb_true_iff in H as [_ H].
  now destruct (array_index key).
Qed.

(** With period keys only, they are visited in creation order. *)
Lemma for_in_period_keys o :
  Forall (fun key => period_key key = true) (map fst o) -> for_in o = o.
Proof.
  intros H. unfold for_in.
  assert (Hi : integer_keyed o = []).
  { induction o as [|e o IH]; simpl; [reflexivity|].
    inversion H as [|? ? He Ho]; subst.
    rewrite (period_key_not_index _ He). auto. }
  assert (Hs : string_keyed o = o).
  { induction o as [|e o IH]; simpl; [reflexivity|].
    inversion H as [|? ? He Ho]; subst.
    rewrite (period_key_not_index _ He). f_equal.
    apply IH; [assumption|].
    simpl in Hi. now rewrite (period_key_not_index _ He) in Hi. }
  now rewrite Hi, Hs.
Qed.
End ObjectFacts.

(** ** The stages of the service *)

(** The recognized values of the two parameters. *)
Definition frequency_names : list string := ["monthEnd"; "weekEnd"; "quarterEnd"; "yearEnd"].
Definition function_names : list string := ["min"; "max"; "sum"].

(** A parameter that is absent or outside [names]. *)
Definition unrecognized (names : list string) (parameter : option string) : Prop :=
  match parameter with
  | None => True
  | Some name => ~ In name names
  end.

(** The values of the entries of a keyed series that carry [key], in
    order. *)
Definition values_of (key : string) (timeseries : list (string * Value)) : list Value :=
  map snd (filter (fun p => String.eqb key (fst p)) timeseries).

(** What the grouping pass holds for [key] after [timeseries]. *)
Definition group_of (timeseries : list (string * Value)) (key : string) :
  option (list Value) :=
  match values_of key timeseries with
  | [] => None
  | values => Some values
  end.

Definition nonempty (e : string * list Value) : Prop := snd e <> [].

Section Stages.
Variable host : Host.
Variable dateFns : DateFns.

(** An entry that [cleanTimeSeries] lets through: its date text parses
    and its value does not convert to NaN. *)
Definition valid_point (p : RawPoint) : bool :=
  negb (invalid_date dateFns (parse dateFns (fst p))) && negb (isNaN host (snd p)).

Definition valid_series (timeseries : list RawPoint) : bool :=
  forallb valid_point timeseries.

Definition clean_point (p : RawPoint) : Point dateFns :=
  (parse dateFns (fst p), snd p).

(** The period end that a frequency name assigns to a date. *)
Definition change_frequency (frequency : string) (d : Date dateFns) : Date dateFns :=
  match own_get (FREQUENCY_OPTION_METHOD_INDEX dateFns) frequency with
  | Some changeFrequencyMethod => changeFrequencyMethod d
  | None => d
  end.

(** The period key an entry of the posted series resolves to. *)
Definition period (frequency : string) (p : RawPoint) : string :=
  format dateFns (change_frequency frequency (parse dateFns (fst p))).

Definition keyed_point (frequency : string) (p : RawPoint) : KeyedPoint :=
  (period frequency p, snd p).

(** The call of the aggregation method that a function name selects. *)
Definition aggregate (function : string) (values : list Value) : Result Value :=
  match own_get (FUNCTION_OPTION_METHOD_INDEX host) function with
  | Some resampleFunctionMethod => resampleFunctionMethod values
  | None => Throw (TypeError "resampleFunctionMethod is not a function")
  end.

(** Its result on a group that has a first value. *)
Definition aggregated (function : string) (values : list Value) : Value :=
  match values with
  | [] => JUndefined
  | first :: rest =>
      if String.eqb function "min" then fold_left (Math_min host) rest first
      else if String.eqb function "max" then fold_left (Math_max host) rest first
      else fold_left (js_add host) values (JNum zero)
  end.

Lemma frequency_name_own (frequency : string) :
  In frequency frequency_names <->
  hasOwnProperty (FREQUENCY_OPTION_METHOD_INDEX dateFns) frequency = true.
Proof.
  unfold hasOwnProperty, frequency_names; simpl.
  repeat match goal with
    | |- context [String.eqb ?a ?b] => destruct (String.eqb_spec a b)
    end; subst; intuition (try discriminate; try congruence).
Qed.

Lemma function_name_own (function : string) :
  In function function_names <->
  hasOwnProperty (FUNCTION_OPTION_METHOD_INDEX host) function = true.
Proof.
  unfold hasOwnProperty, function_names; simpl.
  repeat match goal with
    | |- context [String.eqb ?a ?b] => destruct (String.eqb_spec a b)
    end; subst; intuition (try discriminate; try congruence).
Qed.

Lemma validateParams_Return (params : Params) :
  validateParams host dateFns params = Return tt <->
  exists frequency function,
    resampleFrequency params = Some frequency /\ In frequency frequency_names /\
    resampleFunction params = Some function /\ In function function_names.
Proof.
  unfold validateParams.
  destruct (resampleFrequency params) as [frequency|].
  2: { split; [discriminate|]. intros (? & ? & [=] & _). }
  destruct (hasOwnProperty (FREQUENCY_OPTION_METHOD_INDEX dateFns) frequency) eqn:Hf; simpl.
  2: { split; [discriminate|]. intros (f & ? & [= <-] & Hin & _).
       apply frequency_name_own in Hin. congruence. }
  apply frequency_name_own in Hf.
  destruct (resampleFunction params) as [function|].
  2: { split; [discriminate|]. intros (? & ? & _ & _ & [=] & _). }
  destruct (hasOwnProperty (FUNCTION_OPTION_METHOD_INDEX host) function) eqn:Hg; simpl.
  2: { split; [discriminate|]. intros (? & g & _ & _ & [= <-] & Hin).
       apply function_name_own in Hin. congruence. }
  apply function_name_own in Hg.
  split; [|reflexivity]. intros _. now exists frequency, function.
Qed.

(** [validateParams] throws nothing but the two parameter errors. *)
Lemma validateParams_Throw (params : Params) (e : Exception) :
  validateParams host dateFns params = Throw e ->
  e = InvalidParameter "resampleFrequency" \/ e = InvalidParameter "resampleFunction".
Proof.
  unfold validateParams.
  destruct (resampleFrequency params); [|intros [= <-]; now left].
  destruct (negb _); [intros [= <-]; now left|].
  destruct (resampleFunction params); [|intros [= <-]; now right].
  destruct (negb _); [intros [= <-]; now right|discriminate].
Qed.

Lemma cleanTimeSeries_loop_valid (timeseries : list RawPoint) :
  valid_series timeseries = true ->
  forall cleanedSeries,
    cleanTimeSeries_loop host dateFns timeseries cleanedSeries =
    Return (cleanedSeries ++ map clean_point timeseries).
Proof.
  induction timeseries as [|[dateRaw value] rest IH]; simpl; intros Hv acc.
  - now rewrite app_nil_r.
  - apply andb_true_iff in Hv as [Hp Hv].
    unfold valid_point in Hp; simpl in Hp.
    apply andb_true_iff in Hp as [Hd Hn].
    apply negb_true_iff in Hd, Hn. rewrite Hd, Hn.
    rewrite IH by assumption. now rewrite <- app_assoc.
Qed.

(** The first entry that is not let through decides the error. *)
Lemma cleanTimeSeries_loop_invalid (before after : list RawPoint) (p : RawPoint) :
  valid_series before = true -> valid_point p = false ->
  forall cleanedSeries,
    cleanTimeSeries_loop host dateFns (before ++ p :: after) cleanedSeries =
    Throw (if invalid_date dateFns (parse dateFns (fst p))
           then InvalidDate (fst p) else InvalidValue (snd p)).
Proof.
  induction before as [|[dateRaw value] rest IH]; simpl; intros Hv Hp acc.
  - destruct p as [dateRaw value]; unfold valid_point in Hp; simpl in *.
    destruct (invalid_date dateFns (parse dateFns dateRaw)); [reflexivity|].
    simpl in Hp. apply negb_false_iff in Hp. now rewrite Hp.
  - apply andb_true_iff in Hv as [Hq Hv].
    unfold valid_point in Hq; simpl in Hq.
    apply andb_true_iff in Hq as [Hd Hn].
    apply negb_true_iff in Hd, Hn. rewrite Hd, Hn. now apply IH.
Qed.

(** A series that is not valid splits at its first invalid entry. *)
Lemma valid_series_false (timeseries : list RawPoint) :
  valid_series timeseries = false ->
  exists before p after,
    timeseries = before ++ p :: after /\
    valid_series before = true /\ valid_point p = false.
Proof.
  induction timeseries as [|q rest IH]; simpl; [discriminate|].
  destruct (valid_point q) eqn:Hq; simpl.
  - intros H. destruct (IH H) as (before & p & after & -> & Hb & Hp).
    exists (q :: before), p, after. simpl. now rewrite Hq.
  - intros _. now exists [], q, rest.
Qed.

Lemma cleanTimeSeries_Return (timeseries : list RawPoint) (cleanedSeries : list (Point dateFns)) :
  cleanTimeSeries host dateFns timeseries = Return cleanedSeries <->
  valid_series timeseries = true /\ cleanedSeries = map clean_point timeseries.
Proof.
  unfold cleanTimeSeries. split.
  - intros H. destruct (valid_series timeseries) eqn:Hv.
    + rewrite cleanTimeSeries_loop_valid in H by assumption.
      simpl in H. now inversion H.
    + apply valid_series_false in Hv as (before & p & after & -> & Hb & Hp).
      rewrite cleanTimeSeries_loop_invalid in H by assumption. discriminate.
  - intros [Hv ->]. now rewrite cleanTimeSeries_loop_valid.
Qed.

Lemma cleanTimeSeries_Throw (timeseries : list RawPoint) (e : Exception) :
  cleanTimeSeries host dateFns timeseries = Throw e ->
  (exists dateRaw, e = InvalidDate dateRaw) \/ (exists value, e = InvalidValue value).
Proof.
  unfold cleanTimeSeries. intros H.
  destruct (valid_series timeseries) eqn:Hv.
  - rewrite cleanTimeSeries_loop_valid in H by assumption. discriminate.
  - apply valid_series_false in Hv as (before & p & after & -> & Hb & Hp).
    rewrite cleanTimeSeries_loop_invalid in H by assumption.
    inversion H. destruct (invalid_date _ _); eauto.
Qed.

Lemma applyFrequency_loop_spec (frequency : string) (timeseries : list RawPoint) :
  In frequency frequency_names ->
  forall updatedTimeSeries,
    applyFrequency_loop dateFns (Some frequency) (map clean_point timeseries)
      updatedTimeSeries =
    Return (updatedTimeSeries ++ map (keyed_point frequency) timeseries).
Proof.
  intros Hf. apply frequency_name_own in Hf. unfold hasOwnProperty in Hf.
  induction timeseries as [|[dateRaw value] rest IH]; intros acc;
    cbn [applyFrequency_loop map property_name clean_point fst snd].
  - now rewrite app_nil_r.
  - unfold keyed_point at 1, period, change_frequency.
    cbn [fst snd].
    destruct (own_get (FREQUENCY_OPTION_METHOD_INDEX dateFns) frequency);
      [|discriminate].
    rewrite IH. now rewrite <- app_assoc.
Qed.

Lemma period_is_period_key (frequency : string) (timeseries : list RawPoint) :
  Forall (fun key => period_key key = true)
    (map fst (map (keyed_point frequency) timeseries)).
Proof.
  rewrite map_map. apply Forall_forall. intros key Hin.
  apply in_map_iff in Hin as (p & <- & _). apply format_period_key.
Qed.
End Stages.

(** ** Grouping and reducing *)

Lemma values_of_app (key : string) (l l' : list (string * Value)) :
  values_of key (l ++ l') = values_of key l ++ values_of key l'.
Proof. unfold values_of. now rewrite filter_app, map_app. Qed.

Lemma values_of_nil (key : string) (l : list (string * Value)) :
  values_of key l = [] <-> ~ In key (map fst l).
Proof.
  unfold values_of. induction l as [|[k v] l IH]; simpl; [tauto|].
  destruct (String.eqb_spec key k) as [->|Hk]; simpl.
  - split; [discriminate|tauto].
  - rewrite IH. split; [intros H [E|E]; [congruence|tauto]|tauto].
Qed.

Lemma group_of_Some (l : list (string * Value)) (key : string) (values : list Value) :
  group_of l key = Some values <-> values = values_of key l /\ values <> [].
Proof.
  unfold group_of. destruct (values_of key l) as [|v vs].
  - split; [discriminate|]. intros [-> H]. now elim H.
  - split; [intros [= <-]; split; [reflexivity|discriminate]|].
    now intros [-> _].
Qed.

Lemma group_of_None (l : list (string * Value)) (key : string) :
  group_of l key = None <-> values_of key l = [].
Proof.
  unfold group_of. destruct (values_of key l); split; try reflexivity; discriminate.
Qed.

Lemma values_of_Permutation (key : string) (l l' : list (string * Value)) :
  Permutation l l' -> Permutation (values_of key l) (values_of key l').
Proof.
  intros H. unfold values_of. apply Permutation_map.
  induction H as [|x l l' _ IH|x y l|l l' l'' _ IH1 _ IH2]; simpl.
  - constructor.
  - destruct (String.eqb key (fst x)); auto.
  - destruct (String.eqb key (fst x)), (String.eqb key (fst y)); auto using perm_swap.
  - now transitivity (filter (fun p => String.eqb key (fst p)) l').
Qed.

(** The groups built from a keyed series: one own property for each key of
    the series, holding the values of that key in order. *)
Definition groups_of (timeseries : list (string * Value))
  (frequencyGroups : Obj (list Value)) : Prop :=
  NoDup (map fst frequencyGroups) /\
  forall key, own_get frequencyGroups key = group_of timeseries key.

Lemma groups_of_nil : groups_of [] [].
Proof. split; [constructor|reflexivity]. Qed.

Lemma groups_of_keys (l : list (string * Value)) (o : Obj (list Value)) (key : string) :
  groups_of l o -> In key (map fst o) <-> In key (map fst l).
Proof.
  intros [_ H]. specialize (H key).
  destruct (own_get o key) as [values|] eqn:Hget.
  - symmetry in H. apply group_of_Some in H as [-> Hne].
    apply own_get_In in Hget. split; intros _.
    + destruct (in_dec string_dec key (map fst l)) as [Hin|Hn]; [assumption|].
      apply values_of_nil in Hn. congruence.
    + change key with (fst (key, values_of key l)). now apply in_map.
  - symmetry in H. apply group_of_None, values_of_nil in H.
    apply own_get_None in Hget. tauto.
Qed.

Lemma groups_of_In (l : list (string * Value)) (o : Obj (list Value))
  (key : string) (values : list Value) :
  groups_of l o ->
  In (key, values) o <-> In key (map fst l) /\ values = values_of key l.
Proof.
  intros Ho. pose proof Ho as [Hnd H]. split.
  - intros Hin. split.
    + apply (groups_of_keys l o key Ho).
      change key with (fst (key, values)). now apply in_map.
    + apply In_own_get in Hin; [|assumption].
      rewrite H in Hin. now apply group_of_Some in Hin.
  - intros [Hin ->]. apply own_get_In. rewrite H.
    apply group_of_Some. split; [reflexivity|].
    intros E. now apply values_of_nil in E.
Qed.

Lemma groups_of_nonempty (l : list (string * Value)) (o : Obj (list Value)) :
  groups_of l o -> Forall nonempty o.
Proof.
  intros Ho. apply Forall_forall. intros [key values] Hin.
  apply (groups_of_In l o key values Ho) in Hin as [Hin ->].
  unfold nonempty; simpl. intros E. now apply values_of_nil in E.
Qed.

(** As many groups as distinct keys. *)
Lemma groups_of_length (l : list (string * Value)) (o : Obj (list Value)) :
  groups_of l o -> List.length o = List.length (nodup string_dec (map fst l)).
Proof.
  intros Ho. rewrite <- (length_map fst o).
  apply Permutation_length, NoDup_Permutation.
  - apply Ho.
  - apply NoDup_nodup.
  - intros key. rewrite nodup_In. now apply groups_of_keys.
Qed.

Lemma groups_of_step (l : list (string * Value)) (o : Obj (list Value))
  (date : string) (value : Value) :
  groups_of l o ->
  groups_of (l ++ [(date, value)])
    (own_set o date (match own_get o date with
                     | Some valueGroup => valueGroup ++ [value]
                     | None => [value]
                     end)).
Proof.
  intros [Hnd H]. split; [now apply NoDup_own_set|].
  intros key. rewrite own_get_own_set.
  unfold group_of at 1. rewrite values_of_app.
  unfold values_of at 2. simpl.
  destruct (String.eqb_spec key date) as [->|Hk]; simpl.
  - rewrite H. unfold group_of.
    destruct (values_of date l); reflexivity.
  - rewrite app_nil_r. apply H.
Qed.

Section Grouping.
Variable host : Host.

Lemma group_loop_spec (rest : list (string * Value)) :
  Forall (fun key => period_key key = true) (map fst rest) ->
  forall l o, groups_of l o ->
    exists o', group_loop rest o = Return o' /\ groups_of (l ++ rest) o'.
Proof.
  induction rest as [|[date value] rest IH]; simpl; intros Hk l o Ho.
  - exists o. now rewrite app_nil_r.
  - inversion Hk as [|? ? Hd Hr]; subst.
    unfold period_key in Hd. apply andb_true_iff in Hd as [Hd _].
    apply negb_true_iff in Hd.
    pose proof (groups_of_step l o date value Ho) as Hstep.
    unfold js_in, hasOwnProperty. rewrite Hd.
    destruct (own_get o date) as [valueGroup|]; simpl;
      destruct (IH Hr _ _ Hstep) as (o' & Hrun & Ho');
      exists o'; now rewrite <- app_assoc in Ho'.
Qed.

(** Whatever the keys, a group is created with a value and only grows. *)
Lemma group_loop_nonempty (rest : list (string * Value)) :
  forall o o', Forall nonempty o -> group_loop rest o = Return o' -> Forall nonempty o'.
Proof.
  induction rest as [|[date value] rest IH]; simpl; intros o o' Ho.
  - now intros [= <-].
  - destruct (js_in date o).
    + destruct (own_get o date) as [valueGroup|]; [|discriminate].
      apply IH. apply (Forall_own_set (fun values => values <> [])); [exact Ho|].
      now destruct valueGroup.
    + apply IH. apply (Forall_own_set (fun values => values <> [])); [exact Ho|].
      discriminate.
Qed.

Lemma group_loop_Throw (rest : list (string * Value)) :
  forall o e, group_loop rest o = Throw e ->
    e = TypeError "frequencyGroups[date].push is not a function".
Proof.
  induction rest as [|[date value] rest IH]; simpl; intros o e; [discriminate|].
  destruct (js_in date o); [|apply IH].
  destruct (own_get o date); [apply IH|now intros [= <-]].
Qed.

Lemma aggregate_nonempty (function : string) (values : list Value) :
  In function function_names -> values <> [] ->
  aggregate host function values = Return (aggregated host function values).
Proof.
  intros Hf Hv. destruct values as [|first rest]; [now elim Hv|].
  unfold aggregate, aggregated.
  destruct Hf as [<-|[<-|[<-|[]]]]; reflexivity.
Qed.

Lemma reduce_loop_spec (function : string) (groups : list (string * list Value)) :
  In function function_names -> Forall nonempty groups ->
  forall updatedTimeSeries,
    reduce_loop host (Some function) groups updatedTimeSeries =
    Return (updatedTimeSeries ++
            map (fun e => (fst e, aggregated host function (snd e))) groups).
Proof.
  intros Hf Hg. induction Hg as [|[dateKey valueGroup] groups Hne _ IH]; intros acc;
    cbn [reduce_loop map property_name fst snd].
  - now rewrite app_nil_r.
  - pose proof (aggregate_nonempty function valueGroup Hf Hne) as Ha.
    unfold aggregate in Ha.
    destruct (own_get (FUNCTION_OPTION_METHOD_INDEX host) function);
      [|discriminate].
    rewrite Ha. cbn [bind]. rewrite IH. now rewrite <- app_assoc.
Qed.

(** On non-empty groups the second loop can only miss the method. *)
Lemma reduce_loop_Throw (resampleFunction : option string)
  (groups : list (string * list Value)) :
  Forall nonempty groups ->
  forall updatedTimeSeries e,
    reduce_loop host resampleFunction groups updatedTimeSeries = Throw e ->
    e = TypeError "resampleFunctionMethod is not a function".
Proof.
  intros Hg. induction Hg as [|[dateKey valueGroup] groups Hne _ IH]; intros acc e;
    cbn [reduce_loop]; [discriminate|].
  destruct (own_get (FUNCTION_OPTION_METHOD_INDEX host) (property_name resampleFunction))
    as [method|] eqn:Hget; [|now intros [= <-]].
  assert (Hin : In (property_name resampleFunction) function_names).
  { apply (function_name_own host). unfold hasOwnProperty. now rewrite Hget. }
  pose proof (aggregate_nonempty (property_name resampleFunction) valueGroup Hin Hne) as Ha.
  unfold aggregate in Ha. rewrite Hget in Ha. rewrite Ha. cbn [bind]. apply IH.
Qed.
End Grouping.

(** ** The public method on valid input *)

Section Resample.
Variable host : Host.
Variable dateFns : DateFns.

(** The series that the second loop of [applyFunction] returns for given
    groups. *)
Definition reduced (function : string) (frequencyGroups : Obj (list Value)) :
  list (string * Value) :=
  map (fun e => (fst e, aggregated host function (snd e))) frequencyGroups.

Lemma resample_valid (timeseries : list RawPoint) (frequency function : string) :
  In frequency frequency_names -> In function function_names ->
  valid_series host dateFns timeseries = true ->
  exists frequencyGroups,
    groups_of (map (keyed_point dateFns frequency) timeseries) frequencyGroups /\
    resample host dateFns timeseries
      {| resampleFrequency := Some frequency; resampleFunction := Some function |} =
    Return (reduced function frequencyGroups).
Proof.
  intros Hf Hg Hv. unfold resample.
  assert (Hp : validateParams host dateFns
                 {| resampleFrequency := Some frequency;
                    resampleFunction := Some function |} = Return tt).
  { apply validateParams_Return. now exists frequency, function. }
  rewrite Hp. cbn [bind resampleFrequency resampleFunction].
  unfold cleanTimeSeries. rewrite (cleanTimeSeries_loop_valid host dateFns _ Hv).
  cbn [bind app]. unfold applyFrequency.
  rewrite (applyFrequency_loop_spec dateFns frequency timeseries Hf).
  cbn [bind app]. unfold applyFunction.
  destruct (group_loop_spec _ (period_is_period_key dateFns frequency timeseries)
              [] [] groups_of_nil) as (o & Hrun & Ho).
  rewrite Hrun. cbn [bind app] in *.
  exists o. split; [assumption|].
  rewrite for_in_period_keys.
  - rewrite (reduce_loop_spec host function o Hg (groups_of_nonempty _ _ Ho)).
    reflexivity.
  - apply Forall_forall. intros key Hin.
    apply (groups_of_keys _ _ key Ho) in Hin.
    pose proof (period_is_period_key dateFns frequency timeseries) as Hk.
    rewrite Forall_forall in Hk. now apply Hk.
Qed.

Lemma reduced_In (function : string) (l : list (string * Value))
  (o : Obj (list Value)) (key : string) (value : Value) :
  groups_of l o ->
  In (key, value) (reduced function o) <->
  In key (map fst l) /\ value = aggregated host function (values_of key l).
Proof.
  intros Ho. unfold reduced. rewrite in_map_iff. split.
  - intros ([k values] & [= <- <-] & Hin).
    apply (groups_of_In l o k values Ho) in Hin as [Hin ->]. now split.
  - intros [Hin ->]. exists (key, values_of key l). split; [reflexivity|].
    now apply (groups_of_In l o key _ Ho).
Qed.

Lemma reduced_keys (function : string) (o : Obj (list Value)) :
  map fst (reduced function o) = map fst o.
Proof. unfold reduced. rewrite map_map. reflexivity. Qed.

Lemma reduced_NoDup (function : string) (l : list (string * Value))
  (o : Obj (list Value)) :
  groups_of l o -> NoDup (reduced function o).
Proof.
  intros [Hnd _]. apply (NoDup_map_inv fst). now rewrite reduced_keys.
Qed.

(** *** Reducing a rearranged group *)

Lemma fold_Math_min (rest : list Value) (x : float) :
  fold_left (Math_min host) rest (JNum x) =
  JNum (fold_left min_number (map (ToNumber host) rest) x).
Proof.
  revert x. induction rest as [|v rest IH]; intros x; simpl; [reflexivity|].
  unfold Math_min at 2. simpl. apply IH.
Qed.

Lemma fold_Math_max (rest : list Value) (x : float) :
  fold_left (Math_max host) rest (JNum x) =
  JNum (fold_left max_number (map (ToNumber host) rest) x).
Proof.
  revert x. induction rest as [|v rest IH]; intros x; simpl; [reflexivity|].
  unfold Math_max at 2. simpl. apply IH.
Qed.

(** From two values on, [reduce] with [Math.min] is the least of the
    converted values, whatever comes first. *)
Lemma reduce_Math_min (first second : Value) (rest : list Value) :
  fold_left (Math_min host) (second :: rest) first =
  JNum (fold_left min_number (map (ToNumber host) (first :: second :: rest)) infinity).
Proof.
  simpl. unfold Math_min at 2. rewrite fold_Math_min.
  now rewrite min_number_infinity.
Qed.

Lemma reduce_Math_max (first second : Value) (rest : list Value) :
  fold_left (Math_max host) (second :: rest) first =
  JNum (fold_left max_number (map (ToNumber host) (first :: second :: rest)) neg_infinity).
Proof.
  simpl. unfold Math_max at 2. rewrite fold_Math_max.
  now rewrite max_number_neg_infinity.
Qed.

Lemma aggregated_Permutation (function : string) (values values' : list Value) :
  function = "min" \/ function = "max" ->
  Permutation values values' ->
  aggregated host function values = aggregated host function values'.
Proof.
  intros Hf Hp.
  destruct values as [|a [|b l]].
  - apply Permutation_nil in Hp. now subst.
  - apply Permutation_length_1_inv in Hp. now subst.
  - destruct values' as [|a' [|b' l']];
      try (apply Permutation_length in Hp; discriminate Hp).
    destruct Hf as [-> | ->]; cbn [aggregated String.eqb Ascii.eqb Bool.eqb].
    + rewrite !reduce_Math_min. f_equal.
      apply fold_left_Permutation;
        auto using min_number_comm, min_number_assoc, Permutation_map.
    + rewrite !reduce_Math_max. f_equal.
      apply fold_left_Permutation;
        auto using max_number_comm, max_number_assoc, Permutation_map.
Qed.
End Resample.

(** * The claims *)

(** ** The examples of the specification *)

Example resample_yearEnd_max :
  resample IntegerHost.host date_fns
    [("2017-05-05", JNum 22.5); ("2017-05-20", JNum 10); ("2017-10-10", JNum 44.5)]
    {| resampleFrequency := Some "yearEnd"; resampleFunction := Some "max" |} =
  Return [("2017-12-31", JNum 44.5)].
Proof. reflexivity. Qed.

Example unknown_frequency_message :
  module_exports IntegerHost.host date_fns (Some [("2017-05-05", JNum 22.5)])
    {| resampleFrequency := Some "dayEnd"; resampleFunction := Some "sum" |} =
  (Some "Invalid resampleFrequency paramter", None).
Proof. reflexivity. Qed.

Example missing_function_message :
  module_exports IntegerHost.host date_fns (Some [("2017-05-05", JNum 22.5)])
    {| resampleFrequency := Some "monthEnd"; resampleFunction := None |} =
  (Some "Invalid resampleFunction paramter", None).
Proof. reflexivity. Qed.

Example invalid_value_message :
  module_exports IntegerHost.host date_fns (Some [("2017-05-05", JStr "abc")])
    {| resampleFrequency := Some "monthEnd"; resampleFunction := Some "sum" |} =
  (Some "Invalid value: abc", None).
Proof. reflexivity. Qed.

Example invalid_date_message :
  module_exports IntegerHost.host date_fns (Some [("someday", JNum 5)])
    {| resampleFrequency := Some "monthEnd"; resampleFunction := Some "sum" |} =
  (Some "Invalid date: someday", None).
Proof. reflexivity. Qed.

(** ** Worked example *)

(** C1: for the series [["2017-05-05", 22.5], ["2017-05-20", 10.0],
    ["2017-10-10", 44.5]] with frequency [monthEnd] and function [sum],
    [resample] returns, and returns exactly the two pairs
    ["2017-05-31", 32.5] and ["2017-10-31", 44.5]. *)
Theorem resample_monthEnd_sum (host : Host) :
  resample host date_fns
    [("2017-05-05", JNum 22.5); ("2017-05-20", JNum 10); ("2017-10-10", JNum 44.5)]
    {| resampleFrequency := Some "monthEnd"; resampleFunction := Some "sum" |} =
  Return [("2017-05-31", JNum 32.5); ("2017-10-31", JNum 44.5)].
Proof. reflexivity. Qed.

(** ** Output size *)

Lemma nodup_length_le (keys : list string) :
  List.length (nodup string_dec keys) <= List.length keys.
Proof.
  apply NoDup_incl_length; [apply NoDup_nodup|].
  intros key. now rewrite nodup_In.
Qed.

(** C2: for valid options and a valid series of length n whose points
    resolve to k distinct period keys, [resample] returns a series of
    length exactly k, and k <= n. *)
Theorem resample_length (host : Host) (dateFns : DateFns)
  (timeseries : list RawPoint) (frequency function : string) :
  In frequency frequency_names -> In function function_names ->
  valid_series host dateFns timeseries = true ->
  exists resampledTimeseries,
    resample host dateFns timeseries
      {| resampleFrequency := Some frequency; resampleFunction := Some function |} =
    Return resampledTimeseries /\
    List.length resampledTimeseries =
    List.length (nodup string_dec (map (period dateFns frequency) timeseries)) /\
    List.length (nodup string_dec (map (period dateFns frequency) timeseries)) <=
    List.length timeseries.
Proof.
  intros Hf Hg Hv.
  destruct (resample_valid host dateFns timeseries frequency function Hf Hg Hv)
    as (o & Ho & Hrun).
  exists (reduced host function o). split; [assumption|]. split.
  - unfold reduced. rewrite length_map, (groups_of_length _ _ Ho), map_map.
    reflexivity.
  - rewrite <- (length_map (period dateFns frequency) timeseries).
    apply nodup_length_le.
Qed.

Lemma resample_length_witness :
  exists resampledTimeseries,
    resample IntegerHost.host date_fns
      [("2017-05-05", JNum 22.5); ("2017-05-20", JNum 10); ("2017-10-10", JNum 44.5)]
      {| resampleFrequency := Some "monthEnd"; resampleFunction := Some "max" |} =
    Return resampledTimeseries /\
    List.length resampledTimeseries =
    List.length (nodup string_dec (map (period date_fns "monthEnd")
      [("2017-05-05", JNum 22.5); ("2017-05-20", JNum 10); ("2017-10-10", JNum 44.5)])) /\
    List.length (nodup string_dec (map (period date_fns "monthEnd")
      [("2017-05-05", JNum 22.5); ("2017-05-20", JNum 10); ("2017-10-10", JNum 44.5)])) <=
    3.
Proof.
  apply (resample_length IntegerHost.host date_fns
           [("2017-05-05", JNum 22.5); ("2017-05-20", JNum 10); ("2017-10-10", JNum 44.5)]
           "monthEnd" "max").
  - simpl. auto.
  - simpl. auto.
  - reflexivity.
Defined.

(** ** Parameter errors *)

(** C3, as the code has it: when [resampleFrequency] is absent or not one
    of [monthEnd], [weekEnd], [quarterEnd], [yearEnd], [resample] fails
    with the parameter error for the frequency, whatever the series holds,
    unreadable entries included: no entry is looked at before.  Likewise,
    when the frequency is recognized, an absent or unrecognized
    [resampleFunction] fails with the parameter error for the function. *)
Theorem resample_invalid_parameter (host : Host) (dateFns : DateFns)
  (timeseries : list RawPoint) (params : Params) :
  (unrecognized frequency_names (resampleFrequency params) ->
   resample host dateFns timeseries params =
   Throw (InvalidParameter "resampleFrequency")) /\
  (forall frequency,
     resampleFrequency params = Some frequency -> In frequency frequency_names ->
     unrecognized function_names (resampleFunction params) ->
     resample host dateFns timeseries params =
     Throw (InvalidParameter "resampleFunction")).
Proof.
  unfold resample, validateParams. split.
  - destruct (resampleFrequency params) as [frequency|]; simpl; [|reflexivity].
    intros Hf.
    destruct (hasOwnProperty (FREQUENCY_OPTION_METHOD_INDEX dateFns) frequency) eqn:Ho;
      [|reflexivity].
    apply frequency_name_own in Ho. contradiction.
  - intros frequency -> Hf Hg.
    apply (frequency_name_own dateFns) in Hf. rewrite Hf. cbn [negb].
    destruct (resampleFunction params) as [function|]; simpl in *; [|reflexivity].
    destruct (hasOwnProperty (FUNCTION_OPTION_METHOD_INDEX host) function) eqn:Ho;
      [|reflexivity].
    apply function_name_own in Ho. contradiction.
Qed.

Lemma resample_invalid_parameter_witness :
  resample IntegerHost.host date_fns [("someday", JStr "abc")]
    {| resampleFrequency := Some "dayEnd"; resampleFunction := Some "sum" |} =
  Throw (InvalidParameter "resampleFrequency") /\
  resample IntegerHost.host date_fns [("someday", JStr "abc")]
    {| resampleFrequency := Some "yearEnd"; resampleFunction := None |} =
  Throw (InvalidParameter "resampleFunction").
Proof.
  split.
  - apply (resample_invalid_parameter IntegerHost.host date_fns
             [("someday", JStr "abc")]
             {| resampleFrequency := Some "dayEnd"; resampleFunction := Some "sum" |}).
    simpl. intuition discriminate.
  - apply (proj2 (resample_invalid_parameter IntegerHost.host date_fns
             [("someday", JStr "abc")]
             {| resampleFrequency := Some "yearEnd"; resampleFunction := None |})
             "yearEnd").
    + reflexivity.
    + simpl. auto.
    + exact I.
Defined.

(** The claim C3 fails as stated where both parameters are refused: the
    frequency is checked first and its error is the one thrown. *)
Lemma resample_invalid_parameter_counterexample :
  unrecognized function_names None /\
  resample IntegerHost.host date_fns [("2017-05-05", JNum 22.5)]
    {| resampleFrequency := Some "dayEnd"; resampleFunction := None |} =
  Throw (InvalidParameter "resampleFrequency") /\
  InvalidParameter "resampleFrequency" <> InvalidParameter "resampleFunction".
Proof. split; [exact I|]. split; [reflexivity|discriminate]. Qed.

(** ** The cleaned series *)

(** C4, as the code has it: every point that [cleanTimeSeries] returns
    carries a value whose conversion to a number is not NaN (an infinity is
    let through); and an entry whose value converts to NaN, its date text
    being parsable and the entries before it valid, makes the call fail
    with the value error carrying that value. *)
Theorem cleanTimeSeries_values (host : Host) (dateFns : DateFns)
  (timeseries : list RawPoint) :
  (forall cleanedSeries,
     cleanTimeSeries host dateFns timeseries = Return cleanedSeries ->
     Forall (fun point => is_nan (ToNumber host (snd point)) = false) cleanedSeries) /\
  (forall before p after,
     timeseries = before ++ p :: after ->
     valid_series host dateFns before = true ->
     invalid_date dateFns (parse dateFns (fst p)) = false ->
     isNaN host (snd p) = true ->
     cleanTimeSeries host dateFns timeseries = Throw (InvalidValue (snd p))).
Proof.
  split.
  - intros cleanedSeries H. apply cleanTimeSeries_Return in H as [Hv ->].
    apply Forall_forall. intros point Hin.
    apply in_map_iff in Hin as (p & <- & Hin).
    unfold valid_series in Hv. rewrite forallb_forall in Hv.
    specialize (Hv p Hin). unfold valid_point in Hv.
    apply andb_true_iff in Hv as [_ Hv]. now apply negb_true_iff in Hv.
  - intros before p after -> Hb Hd Hn. unfold cleanTimeSeries.
    rewrite cleanTimeSeries_loop_invalid.
    + now rewrite Hd.
    + assumption.
    + unfold valid_point. now rewrite Hn, andb_false_r.
Qed.

Lemma cleanTimeSeries_values_witness :
  Forall (fun point => is_nan (ToNumber IntegerHost.host (snd point)) = false)
    [(Calendar.Day 2017 5 5, JNum 22.5); (Calendar.Day 2017 5 20, JStr "10")] /\
  cleanTimeSeries IntegerHost.host date_fns
    [("2017-05-05", JNum 22.5); ("2017-05-20", JStr "abc"); ("someday", JNum 1)] =
  Throw (InvalidValue (JStr "abc")).
Proof.
  split.
  - apply (proj1 (cleanTimeSeries_values IntegerHost.host date_fns
                    [("2017-05-05", JNum 22.5); ("2017-05-20", JStr "10")])).
    reflexivity.
  - apply (proj2 (cleanTimeSeries_values IntegerHost.host date_fns
                    [("2017-05-05", JNum 22.5); ("2017-05-20", JStr "abc");
                     ("someday", JNum 1)])
             [("2017-05-05", JNum 22.5)] ("2017-05-20", JStr "abc")
             [("someday", JNum 1)]); reflexivity.
Defined.

(** The claim C4 fails as stated: the number that the JSON text [1e999]
    denotes is infinite and passes, and an entry whose date text and value
    are both refused is reported by its date. *)
Lemma cleanTimeSeries_values_counterexample :
  cleanTimeSeries IntegerHost.host date_fns [("2017-05-05", JNum infinity)] =
  Return [(Calendar.Day 2017 5 5, JNum infinity)] /\
  is_finite infinity = false /\
  isNaN IntegerHost.host (JStr "abc") = true /\
  cleanTimeSeries IntegerHost.host date_fns [("someday", JStr "abc")] =
  Throw (InvalidDate "someday").
Proof. repeat split. Qed.

(** C8: when [cleanTimeSeries] returns, its result has the length of the
    input and its i-th point is the i-th entry, parsed; the only other
    outcome is an error, with which no array comes back. *)
Theorem cleanTimeSeries_all_or_nothing (host : Host) (dateFns : DateFns)
  (timeseries : list RawPoint) :
  (forall cleanedSeries,
     cleanTimeSeries host dateFns timeseries = Return cleanedSeries ->
     List.length cleanedSeries = List.length timeseries /\
     forall i, nth_error cleanedSeries i =
               option_map (clean_point dateFns) (nth_error timeseries i)) /\
  (cleanTimeSeries host dateFns timeseries =
     Return (map (clean_point dateFns) timeseries) \/
   exists e, cleanTimeSeries host dateFns timeseries = Throw e).
Proof.
  split.
  - intros cleanedSeries H. apply cleanTimeSeries_Return in H as [_ ->].
    split; [apply length_map|]. intros i. apply nth_error_map.
  - destruct (cleanTimeSeries host dateFns timeseries) as [cleanedSeries|e] eqn:H.
    + left. apply cleanTimeSeries_Return in H as [_ ->]. reflexivity.
    + right. now exists e.
Qed.

Lemma cleanTimeSeries_all_or_nothing_witness :
  List.length [(Calendar.Day 2017 5 5, JNum 22.5); (Calendar.Day 2017 10 10, JNum 44.5)] =
  List.length [("2017-05-05", JNum 22.5); ("2017-10-10", JNum 44.5)] /\
  forall i,
    nth_error [(Calendar.Day 2017 5 5, JNum 22.5); (Calendar.Day 2017 10 10, JNum 44.5)] i =
    option_map (clean_point date_fns)
      (nth_error [("2017-05-05", JNum 22.5); ("2017-10-10", JNum 44.5)] i).
Proof.
  apply (proj1 (cleanTimeSeries_all_or_nothing IntegerHost.host date_fns
                  [("2017-05-05", JNum 22.5); ("2017-10-10", JNum 44.5)])).
  reflexivity.
Defined.

(** ** Unparsable dates *)

(** C7, as the code has it: an entry with an unparsable date text makes the
    whole call fail, wherever the entry stands and whatever the options
    are, and nothing is returned; with valid options and valid entries
    before it, the error is the date error carrying that text. *)
Theorem resample_invalid_date (host : Host) (dateFns : DateFns)
  (before after : list RawPoint) (p : RawPoint) :
  invalid_date dateFns (parse dateFns (fst p)) = true ->
  (forall params, exists e,
     resample host dateFns (before ++ p :: after) params = Throw e) /\
  (forall frequency function,
     In frequency frequency_names -> In function function_names ->
     valid_series host dateFns before = true ->
     resample host dateFns (before ++ p :: after)
       {| resampleFrequency := Some frequency; resampleFunction := Some function |} =
     Throw (InvalidDate (fst p))).
Proof.
  intros Hd.
  assert (Hp : valid_point host dateFns p = false)
    by (unfold valid_point; now rewrite Hd).
  split.
  - intros params. unfold resample.
    destruct (validateParams host dateFns params) as [[]|e]; [|now exists e].
    cbn [bind].
    destruct (cleanTimeSeries host dateFns (before ++ p :: after))
      as [cleanedSeries|e] eqn:H; [|now exists e].
    apply cleanTimeSeries_Return in H as [Hv _]. exfalso.
    unfold valid_series in Hv. rewrite forallb_app in Hv. simpl in Hv.
    rewrite Hp, andb_false_r in Hv. discriminate.
  - intros frequency function Hf Hg Hb. unfold resample.
    assert (Hv : validateParams host dateFns
                   {| resampleFrequency := Some frequency;
                      resampleFunction := Some function |} = Return tt).
    { apply validateParams_Return. now exists frequency, function. }
    rewrite Hv. cbn [bind]. unfold cleanTimeSeries.
    rewrite cleanTimeSeries_loop_invalid by assumption. now rewrite Hd.
Qed.

Lemma resample_invalid_date_witness :
  (forall params, exists e,
     resample IntegerHost.host date_fns
       ([("2017-05-05", JNum 22.5)] ++ ("someday", JNum 5) :: [("2017-10-10", JNum 44.5)])
       params = Throw e) /\
  resample IntegerHost.host date_fns
    ([("2017-05-05", JNum 22.5)] ++ ("someday", JNum 5) :: [("2017-10-10", JNum 44.5)])
    {| resampleFrequency := Some "weekEnd"; resampleFunction := Some "min" |} =
  Throw (InvalidDate "someday").
Proof.
  pose proof (resample_invalid_date IntegerHost.host date_fns
                [("2017-05-05", JNum 22.5)] [("2017-10-10", JNum 44.5)]
                ("someday", JNum 5) eq_refl) as [Hany Hfirst].
  split; [exact Hany|].
  apply (Hfirst "weekEnd" "min"); [simpl; auto|simpl; auto|reflexivity].
Defined.

(** The claim C7 fails as stated: an entry refused for its value, standing
    before the entry with the unparsable date text, decides the error. *)
Lemma resample_invalid_date_counterexample :
  Calendar.invalid_date (Calendar.parse "someday") = true /\
  resample IntegerHost.host date_fns [("2017-05-05", JStr "abc"); ("someday", JNum 5)]
    {| resampleFrequency := Some "monthEnd"; resampleFunction := Some "sum" |} =
  Throw (InvalidValue (JStr "abc")) /\
  InvalidValue (JStr "abc") <> InvalidDate "someday".
Proof. repeat split. discriminate. Qed.

(** ** Rearranged input *)

Lemma valid_series_Permutation (host : Host) (dateFns : DateFns)
  (timeseries timeseries' : list RawPoint) :
  Permutation timeseries timeseries' ->
  valid_series host dateFns timeseries = true ->
  valid_series host dateFns timeseries' = true.
Proof.
  unfold valid_series. rewrite !forallb_forall. intros Hp Hv p Hin.
  apply Hv. apply Permutation_in with (l := timeseries'); [|assumption].
  now symmetry.
Qed.

Lemma reduced_Permutation_keys (host : Host) (function : string)
  (l l' : list (string * Value)) (o o' : Obj (list Value)) :
  Permutation l l' -> groups_of l o -> groups_of l' o' ->
  Permutation (map fst (reduced host function o)) (map fst (reduced host function o')).
Proof.
  intros Hp Ho Ho'. rewrite !reduced_keys.
  apply NoDup_Permutation; [apply Ho|apply Ho'|].
  intros key. rewrite (groups_of_keys l o key Ho), (groups_of_keys l' o' key Ho').
  split; apply Permutation_in; [|symmetry]; now apply Permutation_map.
Qed.

Lemma reduced_Permutation (host : Host) (function : string)
  (l l' : list (string * Value)) (o o' : Obj (list Value)) :
  function = "min" \/ function = "max" ->
  Permutation l l' -> groups_of l o -> groups_of l' o' ->
  Permutation (reduced host function o) (reduced host function o').
Proof.
  intros Hf Hp Ho Ho'.
  apply NoDup_Permutation; [now apply (reduced_NoDup host function l)
                           |now apply (reduced_NoDup host function l')|].
  intros [key value].
  rewrite (reduced_In host function l o key value Ho),
          (reduced_In host function l' o' key value Ho').
  rewrite (aggregated_Permutation host function _ _ Hf
             (values_of_Permutation key l l' Hp)).
  assert (Hk : In key (map fst l) <-> In key (map fst l'))
    by (split; apply Permutation_in; [|symmetry]; now apply Permutation_map).
  tauto.
Qed.

(** C5, as the code has it: for valid options and a valid series,
    resampling any rearrangement of the series gives the same period keys;
    and for [min] and [max] it gives the same set of pairs of a period key
    and its aggregated value, in some order. *)
Theorem resample_Permutation (host : Host) (dateFns : DateFns)
  (timeseries timeseries' : list RawPoint) (frequency function : string) :
  In frequency frequency_names -> In function function_names ->
  valid_series host dateFns timeseries = true ->
  Permutation timeseries timeseries' ->
  exists resampled resampled',
    resample host dateFns timeseries
      {| resampleFrequency := Some frequency; resampleFunction := Some function |} =
    Return resampled /\
    resample host dateFns timeseries'
      {| resampleFrequency := Some frequency; resampleFunction := Some function |} =
    Return resampled' /\
    Permutation (map fst resampled) (map fst resampled') /\
    (function = "min" \/ function = "max" ->
     Permutation resampled resampled' /\
     forall pair, In pair resampled <-> In pair resampled').
Proof.
  intros Hf Hg Hv Hp.
  pose proof (valid_series_Permutation host dateFns _ _ Hp Hv) as Hv'.
  destruct (resample_valid host dateFns timeseries frequency function Hf Hg Hv)
    as (o & Ho & Hrun).
  destruct (resample_valid host dateFns timeseries' frequency function Hf Hg Hv')
    as (o' & Ho' & Hrun').
  pose proof (Permutation_map (keyed_point dateFns frequency) Hp) as Hk.
  exists (reduced host function o), (reduced host function o').
  repeat split; try assumption.
  - exact (reduced_Permutation_keys host function _ _ o o' Hk Ho Ho').
  - exact (reduced_Permutation host function _ _ o o' H Hk Ho Ho').
  - apply Permutation_in.
    exact (reduced_Permutation host function _ _ o o' H Hk Ho Ho').
  - apply Permutation_in. symmetry.
    exact (reduced_Permutation host function _ _ o o' H Hk Ho Ho').
Qed.

Lemma resample_Permutation_witness :
  exists resampled resampled',
    resample IntegerHost.host date_fns
      [("2017-05-05", JNum 22.5); ("2017-10-10", JNum 44.5); ("2017-05-20", JNum 10)]
      {| resampleFrequency := Some "monthEnd"; resampleFunction := Some "min" |} =
    Return resampled /\
    resample IntegerHost.host date_fns
      [("2017-10-10", JNum 44.5); ("2017-05-05", JNum 22.5); ("2017-05-20", JNum 10)]
      {| resampleFrequency := Some "monthEnd"; resampleFunction := Some "min" |} =
    Return resampled' /\
    Permutation (map fst resampled) (map fst resampled') /\
    ("min" = "min" \/ "min" = "max" ->
     Permutation resampled resampled' /\
     forall pair, In pair resampled <-> In pair resampled').
Proof.
  apply (resample_Permutation IntegerHost.host date_fns
           [("2017-05-05", JNum 22.5); ("2017-10-10", JNum 44.5); ("2017-05-20", JNum 10)]
           [("2017-10-10", JNum 44.5); ("2017-05-05", JNum 22.5); ("2017-05-20", JNum 10)]
           "monthEnd" "min").
  - simpl. auto.
  - simpl. auto.
  - reflexivity.
  - apply perm_swap.
Defined.

(** The claim C5 fails for [sum]: binary64 addition rounds, so the order of
    three values of one month changes their sum. *)
Lemma resample_Permutation_counterexample :
  Permutation
    [("2017-05-05", JNum 9007199254740992); ("2017-05-20", JNum 1); ("2017-05-21", JNum 1)]
    [("2017-05-21", JNum 1); ("2017-05-20", JNum 1); ("2017-05-05", JNum 9007199254740992)] /\
  resample IntegerHost.host date_fns
    [("2017-05-05", JNum 9007199254740992); ("2017-05-20", JNum 1); ("2017-05-21", JNum 1)]
    {| resampleFrequency := Some "monthEnd"; resampleFunction := Some "sum" |} =
  Return [("2017-05-31", JNum 9007199254740992)] /\
  resample IntegerHost.host date_fns
    [("2017-05-21", JNum 1); ("2017-05-20", JNum 1); ("2017-05-05", JNum 9007199254740992)]
    {| resampleFrequency := Some "monthEnd"; resampleFunction := Some "sum" |} =
  Return [("2017-05-31", JNum 9007199254740994)] /\
  strict_equal (JNum 9007199254740992) (JNum 9007199254740994) = false /\
  ~ In ("2017-05-31", JNum 9007199254740992) [("2017-05-31", JNum 9007199254740994)].
Proof.
  split; [|split; [|split; [|split]]]; try reflexivity.
  - exact (Permutation_rev
      [("2017-05-05", JNum 9007199254740992); ("2017-05-20", JNum 1);
       ("2017-05-21", JNum 1)]).
  - intros [E|[]]. inversion E.
Qed.

(** ** A single entry *)

Lemma resample_single (host : Host) (dateFns : DateFns) (p : RawPoint)
  (frequency function : string) :
  In frequency frequency_names -> In function function_names ->
  valid_point host dateFns p = true ->
  resample host dateFns [p]
    {| resampleFrequency := Some frequency; resampleFunction := Some function |} =
  Return [(period dateFns frequency p, aggregated host function [snd p])].
Proof.
  intros Hf Hg Hp.
  assert (Hv : valid_series host dateFns [p] = true) by (simpl; now rewrite Hp).
  destruct (resample_valid host dateFns [p] frequency function Hf Hg Hv)
    as (o & Ho & ->).
  f_equal.
  pose proof (groups_of_length _ _ Ho) as Hlen.
  destruct o as [|[key values] [|e o]]; try discriminate Hlen.
  assert (Hin : In (key, values) [(key, values)]) by now left.
  apply (groups_of_In _ _ key values Ho) in Hin as [[<-|[]] ->].
  unfold reduced, values_of. simpl. now rewrite String.eqb_refl.
Qed.

(** For a number, the aggregated value of a single entry is that number:
    the very value for [min] and [max], and [0 + value] for [sum], which
    [===] does not tell from the value. *)
Lemma resample_single_number (host : Host) (dateFns : DateFns)
  (dateRaw : string) (x : float) (frequency function : string) :
  In frequency frequency_names -> In function function_names ->
  valid_point host dateFns (dateRaw, JNum x) = true ->
  exists value,
    resample host dateFns [(dateRaw, JNum x)]
      {| resampleFrequency := Some frequency; resampleFunction := Some function |} =
    Return [(period dateFns frequency (dateRaw, JNum x), value)] /\
    strict_equal value (JNum x) = true /\
    (function <> "sum" \/ is_neg_zero x = false -> value = JNum x).
Proof.
  intros Hf Hg Hp.
  eexists. split; [exact (resample_single host dateFns _ frequency function Hf Hg Hp)|].
  cbn [snd].
  unfold valid_point, isNaN in Hp. simpl in Hp.
  apply andb_true_iff in Hp as [_ Hn]. apply negb_true_iff in Hn.
  assert (Hx : (x =? x)%float = true)
    by (unfold is_nan in Hn; now destruct (x =? x)%float).
  destruct Hg as [<-|[<-|[<-|[]]]]; simpl.
  - split; [assumption|reflexivity].
  - split; [assumption|reflexivity].
  - split; [now apply add_zero_l_equal|].
    intros [H|H]; [now elim H|]. now rewrite add_zero_l.
Qed.

(** C6: for a single valid entry the output has one pair and its value is
    the value of the entry, whichever the function.  The code breaks this
    for [sum] when the value is a numeric text, which [isNaN] lets through
    unconverted: the text [5] comes back as the text [05]. *)
Theorem resample_single_text :
  valid_series IntegerHost.host date_fns [("2017-05-05", JStr "5")] = true /\
  resample IntegerHost.host date_fns [("2017-05-05", JStr "5")]
    {| resampleFrequency := Some "monthEnd"; resampleFunction := Some "sum" |} =
  Return [("2017-05-31", JStr "05")] /\
  strict_equal (JStr "05") (JStr "5") = false.
Proof. repeat split. Qed.

(** ** Groups are never empty *)

Lemma applyFrequency_loop_Throw (dateFns : DateFns) (resampleFrequency : option string)
  (timeseries : list (Point dateFns)) :
  forall updatedTimeSeries e,
    applyFrequency_loop dateFns resampleFrequency timeseries updatedTimeSeries = Throw e ->
    e = TypeError "changeFrequencyMethod is not a function".
Proof.
  induction timeseries as [|[date value] rest IH]; intros acc e;
    cbn [applyFrequency_loop]; [discriminate|].
  destruct (own_get _ _); [apply IH|now intros [= <-]].
Qed.

(** C9: in every call of [resample], each group that the second loop of
    [applyFunction] hands to the aggregation method holds at least one
    value, and the error of reducing an empty array is never thrown. *)
Theorem resample_groups_nonempty (host : Host) (dateFns : DateFns)
  (timeseries : list RawPoint) (resampleParams : Params) :
  (forall cleanedSeries newFrequencyTimeSeries frequencyGroups,
     cleanTimeSeries host dateFns timeseries = Return cleanedSeries ->
     applyFrequency dateFns (resampleFrequency resampleParams) cleanedSeries =
       Return newFrequencyTimeSeries ->
     group_loop newFrequencyTimeSeries [] = Return frequencyGroups ->
     Forall nonempty (for_in frequencyGroups)) /\
  resample host dateFns timeseries resampleParams <>
  Throw (TypeError "Reduce of empty array with no initial value").
Proof.
  assert (Hgroups : forall keyed groups,
             group_loop keyed [] = Return groups -> Forall nonempty (for_in groups)).
  { intros keyed groups Hrun.
    pose proof (group_loop_nonempty keyed [] groups (Forall_nil _) Hrun) as Hne.
    rewrite Forall_forall in *. intros e He. apply Hne. now apply for_in_incl. }
  split; [eauto|].
  unfold resample.
  destruct (validateParams host dateFns resampleParams) as [[]|e] eqn:Hv; cbn [bind].
  2: { apply validateParams_Throw in Hv as [-> | ->]; discriminate. }
  destruct (cleanTimeSeries host dateFns timeseries) as [cleanedSeries|e] eqn:Hc;
    cbn [bind].
  2: { apply cleanTimeSeries_Throw in Hc as [[? ->]|[? ->]]; discriminate. }
  unfold applyFrequency.
  destruct (applyFrequency_loop dateFns (resampleFrequency resampleParams)
              cleanedSeries []) as [keyed|e] eqn:Hf; cbn [bind].
  2: { apply applyFrequency_loop_Throw in Hf as ->. discriminate. }
  unfold applyFunction.
  destruct (group_loop keyed []) as [groups|e] eqn:Hg; cbn [bind].
  2: { apply group_loop_Throw in Hg as ->. discriminate. }
  destruct (reduce_loop host (resampleFunction resampleParams) (for_in groups) [])
    as [out|e] eqn:Hr; [discriminate|].
  apply reduce_loop_Throw in Hr as ->; [discriminate|].
  now apply (Hgroups keyed).
Qed.

Lemma resample_groups_nonempty_witness :
  Forall nonempty
    (for_in [("2017-05-31", [JNum 22.5; JNum 10]); ("2017-10-31", [JNum 44.5])]).
Proof.
  apply (proj1 (resample_groups_nonempty IntegerHost.host date_fns
                  [("2017-05-05", JNum 22.5); ("2017-05-20", JNum 10);
                   ("2017-10-10", JNum 44.5)]
                  {| resampleFrequency := Some "monthEnd";
                     resampleFunction := Some "min" |})
           [(Calendar.Day 2017 5 5, JNum 22.5); (Calendar.Day 2017 5 20, JNum 10);
            (Calendar.Day 2017 10 10, JNum 44.5)]
           [("2017-05-31", JNum 22.5); ("2017-05-31", JNum 10); ("2017-10-31", JNum 44.5)]);
    reflexivity.
Defined.

(** ** The empty series *)

(** C10: for valid options, [resample] of the empty series raises nothing
    and returns the empty series. *)
Theorem resample_empty (host : Host) (dateFns : DateFns) (frequency function : string) :
  In frequency frequency_names -> In function function_names ->
  resample host dateFns []
    {| resampleFrequency := Some frequency; resampleFunction := Some function |} =
  Return [].
Proof.
  intros Hf Hg. unfold resample.
  assert (Hv : validateParams host dateFns
                 {| resampleFrequency := Some frequency;
                    resampleFunction := Some function |} = Return tt).
  { apply validateParams_Return. now exists frequency, function. }
  rewrite Hv. reflexivity.
Qed.

Lemma resample_empty_witness :
  resample IntegerHost.host date_fns []
    {| resampleFrequency := Some "quarterEnd"; resampleFunction := Some "max" |} =
  Return [].
Proof.
  apply (resample_empty IntegerHost.host date_fns "quarterEnd" "max"); simpl; auto.
Defined.

(** * Further properties of the service *)

(** ** When the public method returns, and what it throws *)

(** Both parameters name an entry of their table. *)
Definition recognized (params : Params) : Prop :=
  exists frequency function,
    resampleFrequency params = Some frequency /\ In frequency frequency_names /\
    resampleFunction params = Some function /\ In function function_names.

Lemma resample_returns (host : Host) (dateFns : DateFns)
  (timeseries : list RawPoint) (resampleParams : Params) :
  (exists resampled, resample host dateFns timeseries resampleParams = Return resampled) <->
  recognized resampleParams /\ valid_series host dateFns timeseries = true.
Proof.
  split.
  - intros [resampled H]. unfold resample in H.
    destruct (validateParams host dateFns resampleParams) as [[]|e] eqn:Hv;
      [|discriminate H].
    apply validateParams_Return in Hv. split; [exact Hv|].
    cbn [bind] in H.
    destruct (cleanTimeSeries host dateFns timeseries) as [cleanedSeries|e] eqn:Hc;
      [|discriminate H].
    now apply cleanTimeSeries_Return in Hc.
  - intros [(frequency & function & Hf & Hfin & Hg & Hgin) Hv].
    destruct resampleParams as [rf rg]. simpl in Hf, Hg. subst rf rg.
    destruct (resample_valid host dateFns timeseries frequency function Hfin Hgin Hv)
      as (o & _ & Hrun).
    eauto.
Qed.

(** [resample] returns a series exactly when both parameters are recognized
    and every entry of the posted series has a parsable date text and a
    value that does not convert to NaN. *)
Theorem resample_returns_iff_valid (host : Host) (dateFns : DateFns)
  (timeseries : list RawPoint) (resampleParams : Params) :
  (exists resampled, resample host dateFns timeseries resampleParams = Return resampled) <->
  recognized resampleParams /\ valid_series host dateFns timeseries = true.
Proof. apply resample_returns. Qed.



(** ** The endpoint *)

(** The endpoint hands its callback either an error message and no
    details, or no error and the resampled series; and it hands the series
    exactly when the request has a body, both parameters are recognized
    and every entry of the body is valid. *)
Theorem module_exports_details (host : Host) (dateFns : DateFns)
  (body : option (list RawPoint)) (query : Params) :
  (fst (module_exports host dateFns body query) = None <->
   snd (module_exports host dateFns body query) <> None) /\
  (snd (module_exports host dateFns body query) <> None <->
   exists timeseries,
     body = Some timeseries /\ recognized query /\
     valid_series host dateFns timeseries = true) /\
  (forall resampledSeries,
     snd (module_exports host dateFns body query) = Some resampledSeries <->
     exists timeseries,
       body = Some timeseries /\
       resample host dateFns timeseries query = Return resampledSeries).
Proof.
  unfold module_exports.
  destruct body as [timeseries|]; simpl.
  2: { split; [split; [discriminate|congruence]|]. split.
       - split; [congruence|]. intros (? & [=] & _).
       - intros r. split; [discriminate|]. intros (? & [=] & _). }
  pose proof (resample_returns host dateFns timeseries query) as Hiff.
  destruct (resample host dateFns timeseries query) as [resampled|e] eqn:Hrun; simpl.
  - split; [split; [discriminate|reflexivity]|]. split.
    + split; [|discriminate]. intros _. exists timeseries.
      split; [reflexivity|]. apply Hiff. now exists resampled.
    + intros r. split.
      * intros [= <-]. now exists timeseries.
      * intros (ts & [= <-] & Hr). congruence.
  - split; [split; [discriminate|congruence]|]. split.
    + split; [congruence|]. intros (ts & [= <-] & Hq & Hv).
      destruct (proj2 Hiff (conj Hq Hv)) as [r Hr]. discriminate Hr.
    + intros r. split; [discriminate|].
      intros (ts & [= <-] & Hr). congruence.
Qed.

(** ** The order and the values of the output *)

(** The distinct keys of a list, each at the place of its first
    occurrence. *)
Definition first_occurrences (keys : list string) : list string :=
  rev (nodup string_dec (rev keys)).

Lemma first_occurrences_snoc (keys : list string) (key : string) :
  first_occurrences (keys ++ [key]) =
  if in_dec string_dec key keys
  then first_occurrences keys
  else first_occurrences keys ++ [key].
Proof.
  unfold first_occurrences. rewrite rev_app_distr. simpl.
  destruct (in_dec string_dec key (rev keys)) as [Hr|Hr],
           (in_dec string_dec key keys) as [Hk|Hk]; try reflexivity.
  - elim Hk. now apply in_rev.
  - elim Hr. now apply in_rev in Hk.
Qed.

Lemma first_occurrences_step (l : list (string * Value)) (o : Obj (list Value))
  (date : string) (value : Value) (valueGroup : list Value) :
  groups_of l o ->
  map fst o = first_occurrences (map fst l) ->
  map fst (own_set o date valueGroup) =
  first_occurrences (map fst (l ++ [(date, value)])).
Proof.
  intros Ho Hk. rewrite keys_own_set, map_app. simpl.
  rewrite first_occurrences_snoc. unfold hasOwnProperty.
  destruct (own_get o date) as [values|] eqn:Hget;
    destruct (in_dec string_dec date (map fst l)) as [Hin|Hin];
    try (now rewrite Hk).
  - elim Hin. apply (groups_of_keys l o date Ho).
    apply own_get_In in Hget. change date with (fst (date, values)).
    now apply in_map.
  - apply own_get_None in Hget. elim Hget. now apply (groups_of_keys l o date Ho).
Qed.

Lemma group_loop_first_occurrences (rest : list (string * Value)) :
  Forall (fun key => period_key key = true) (map fst rest) ->
  forall l o,
    groups_of l o -> map fst o = first_occurrences (map fst l) ->
    exists o',
      group_loop rest o = Return o' /\ groups_of (l ++ rest) o' /\
      map fst o' = first_occurrences (map fst (l ++ rest)).
Proof.
  induction rest as [|[date value] rest IH]; simpl; intros Hk l o Ho Hkeys.
  - exists o. now rewrite app_nil_r.
  - inversion Hk as [|? ? Hd Hr]; subst.
    unfold period_key in Hd. apply andb_true_iff in Hd as [Hd _].
    apply negb_true_iff in Hd.
    pose proof (groups_of_step l o date value Ho) as Hstep.
    pose proof (first_occurrences_step l o date value
                  (match own_get o date with
                   | Some valueGroup => valueGroup ++ [value]
                   | None => [value]
                   end) Ho Hkeys) as Horder.
    unfold js_in, hasOwnProperty. rewrite Hd.
    destruct (own_get o date) as [valueGroup|]; simpl;
      destruct (IH Hr _ _ Hstep Horder) as (o' & Hrun & Ho' & Hkeys');
      exists o'; now rewrite <- app_assoc in Ho', Hkeys'.
Qed.

(** For recognized parameters and a valid series, [resample] returns one
    pair for each distinct period key, in the order in which the keys
    first occur in the series, with the aggregate of the values of that
    period taken in the order of the series. *)
Theorem resample_first_occurrences (host : Host) (dateFns : DateFns)
  (timeseries : list RawPoint) (frequency function : string) :
  In frequency frequency_names -> In function function_names ->
  valid_series host dateFns timeseries = true ->
  resample host dateFns timeseries
    {| resampleFrequency := Some frequency; resampleFunction := Some function |} =
  Return
    (map (fun key =>
            (key, aggregated host function
                    (values_of key (map (keyed_point dateFns frequency) timeseries))))
       (first_occurrences (map (period dateFns frequency) timeseries))).
Proof.
  intros Hf Hg Hv. unfold resample.
  assert (Hp : validateParams host dateFns
                 {| resampleFrequency := Some frequency;
                    resampleFunction := Some function |} = Return tt).
  { apply validateParams_Return. now exists frequency, function. }
  rewrite Hp. cbn [bind resampleFrequency resampleFunction].
  unfold cleanTimeSeries. rewrite (cleanTimeSeries_loop_valid host dateFns _ Hv).
  cbn [bind app]. unfold applyFrequency.
  rewrite (applyFrequency_loop_spec dateFns frequency timeseries Hf).
  cbn [bind app]. unfold applyFunction.
  destruct (group_loop_first_occurrences _
              (period_is_period_key dateFns frequency timeseries)
              [] [] groups_of_nil eq_refl) as (o & Hrun & Ho & Hkeys).
  rewrite Hrun. cbn [bind app] in *.
  rewrite for_in_period_keys.
  2: { apply Forall_forall. intros key Hin.
       apply (groups_of_keys _ _ key Ho) in Hin.
       pose proof (period_is_period_key dateFns frequency timeseries) as Hk.
       rewrite Forall_forall in Hk. now apply Hk. }
  rewrite (reduce_loop_spec host function o Hg (groups_of_nonempty _ _ Ho)).
  cbn [app]. f_equal.
  rewrite map_map in Hkeys.
  change (map (fun x => fst (keyed_point dateFns frequency x)) timeseries)
    with (map (period dateFns frequency) timeseries) in Hkeys.
  rewrite <- Hkeys, map_map.
  apply map_ext_in. intros [key values] Hin.
  apply (groups_of_In _ _ key values Ho) in Hin as [_ ->]. reflexivity.
Qed.

Lemma resample_first_occurrences_witness :
  resample IntegerHost.host date_fns
    [("2017-10-10", JNum 44.5); ("2017-05-20", JNum 10); ("2017-10-01", JNum 1);
     ("2017-05-05", JNum 22.5)]
    {| resampleFrequency := Some "monthEnd"; resampleFunction := Some "max" |} =
  Return
    (map (fun key =>
            (key, aggregated IntegerHost.host "max"
                    (values_of key (map (keyed_point date_fns "monthEnd")
                       [("2017-10-10", JNum 44.5); ("2017-05-20", JNum 10);
                        ("2017-10-01", JNum 1); ("2017-05-05", JNum 22.5)]))))
       (first_occurrences (map (period date_fns "monthEnd")
          [("2017-10-10", JNum 44.5); ("2017-05-20", JNum 10); ("2017-10-01", JNum 1);
           ("2017-05-05", JNum 22.5)]))).
Proof.
  apply (resample_first_occurrences IntegerHost.host date_fns
           [("2017-10-10", JNum 44.5); ("2017-05-20", JNum 10); ("2017-10-01", JNum 1);
            ("2017-05-05", JNum 22.5)] "monthEnd" "max").
  - simpl. auto.
  - simpl. auto.
  - reflexivity.
Defined.

Example resample_unsorted_output :
  resample IntegerHost.host date_fns
    [("2017-10-10", JNum 44.5); ("2017-05-20", JNum 10); ("2017-10-01", JNum 1);
     ("2017-05-05", JNum 22.5)]
    {| resampleFrequency := Some "monthEnd"; resampleFunction := Some "max" |} =
  Return [("2017-10-31", JNum 44.5); ("2017-05-31", JNum 22.5)].
Proof. reflexivity. Qed.

(** ** Nothing is lost in the groups *)

(** The entries that groups stand for: each value with the key of its
    group. *)
Definition group_entries (frequencyGroups : Obj (list Value)) : list (string * Value) :=
  flat_map (fun e => map (pair (fst e)) (snd e)) frequencyGroups.

Lemma own_set_new {A : Type} (o : Obj A) (key : string) (a : A) :
  own_get o key = None -> own_set o key a = o ++ [(key, a)].
Proof.
  induction o as [|[k b] o IH]; simpl; [reflexivity|].
  destruct (String.eqb key k); [discriminate|].
  intros H. now rewrite IH.
Qed.

Lemma group_entries_push (o : Obj (list Value)) (date : string)
  (valueGroup : list Value) (value : Value) :
  own_get o date = Some valueGroup ->
  Permutation (group_entries (own_set o date (valueGroup ++ [value])))
    (group_entries o ++ [(date, value)]).
Proof.
  unfold group_entries.
  induction o as [|[k b] o IH]; simpl; [discriminate|].
  destruct (String.eqb_spec date k) as [->|Hk]; simpl.
  - intros [= ->]. rewrite map_app. simpl.
    rewrite <- !app_assoc. apply Permutation_app_head.
    simpl. apply Permutation_cons_append.
  - intros Hget. rewrite <- app_assoc. apply Permutation_app_head. now apply IH.
Qed.

Lemma group_loop_entries (rest : list (string * Value)) :
  forall o o',
    group_loop rest o = Return o' ->
    Permutation (group_entries o') (group_entries o ++ rest).
Proof.
  induction rest as [|[date value] rest IH]; simpl; intros o o'.
  - intros [= <-]. now rewrite app_nil_r.
  - unfold js_in, hasOwnProperty.
    destruct (own_get o date) as [valueGroup|] eqn:Hget; simpl.
    + intros Hrun. apply IH in Hrun. rewrite Hrun.
      rewrite (group_entries_push o date valueGroup value Hget).
      now rewrite <- app_assoc.
    + destruct (inherited date); [discriminate|].
      intros Hrun. apply IH in Hrun. rewrite Hrun.
      rewrite (own_set_new o date [value] Hget).
      assert (Hnew : group_entries (o ++ [(date, [value])]) =
                     group_entries o ++ [(date, value)])
        by (unfold group_entries; now rewrite flat_map_app).
      rewrite Hnew. now rewrite <- app_assoc.
Qed.

(** When the first loop of [applyFunction] comes to its end, every entry
    of the series sits in the group of its date text, once: the groups
    hold the entries of the series, rearranged. *)
Theorem group_loop_keeps_entries (timeseries : list (string * Value))
  (frequencyGroups : Obj (list Value)) :
  group_loop timeseries [] = Return frequencyGroups ->
  Permutation (group_entries frequencyGroups) timeseries.
Proof.
  intros Hrun. now apply group_loop_entries in Hrun.
Qed.

Lemma group_loop_keeps_entries_witness :
  Permutation
    (group_entries [("2017-05-31", [JNum 22.5; JNum 10]); ("2017-10-31", [JNum 44.5])])
    [("2017-05-31", JNum 22.5); ("2017-10-31", JNum 44.5); ("2017-05-31", JNum 10)].
Proof.
  apply (group_loop_keeps_entries
           [("2017-05-31", JNum 22.5); ("2017-10-31", JNum 44.5); ("2017-05-31", JNum 10)]
           [("2017-05-31", [JNum 22.5; JNum 10]); ("2017-10-31", [JNum 44.5])]).
  reflexivity.
Defined.

(** ** The frequency pass *)




(** ** What the aggregates are *)

Lemma rank_leb (n : Z) (x y : float) :
  is_nan x = false -> is_nan y = false ->
  lex_leb (rank n (Prim2SF x)) (rank n (Prim2SF y)) = true ->
  (x <=? y)%float = true.
Proof.
  unfold is_nan. rewrite !eqb_spec, leb_spec.
  generalize (Prim2SF x) (Prim2SF y). intros a b.
  destruct a as [[|]|[|]| |[|] m e], b as [[|]|[|]| |[|] m' e'];
    cbn [rank SFeqb SFleb SFcompare negb];
    rewrite ?Z.compare_refl, ?Pos.compare_cont_refl;
    try reflexivity; try discriminate;
    intros _ _; unfold lex_leb; try (simpl; discriminate).
  - change (PosDef.Pos.compare_cont Eq) with Pos.compare.
    destruct (Z.compare_spec e e'), (Pos.compare_spec m m'); subst; simpl;
      intros Hl; try reflexivity; exfalso; revert Hl; Z_tests;
      intros Hl; discriminate Hl.
  - change (PosDef.Pos.compare_cont Eq) with Pos.compare.
    destruct (Z.compare_spec e e'), (Pos.compare_spec m m'); subst; simpl;
      intros Hl; try reflexivity; exfalso; revert Hl; Z_tests;
      intros Hl; discriminate Hl.
Qed.

Lemma lex_leb_refl (a : Z * Z * Z) : lex_leb a a = true.
Proof. now destruct (lex_leb_total a a). Qed.

Lemma min_number_choice (a b : float) : min_number a b = a \/ min_number a b = b.
Proof.
  pose proof (min_number_spec a b) as H. unfold least in H.
  destruct (lex_leb _ _); [left|right]; now apply Prim2SF_inj.
Qed.

Lemma max_number_choice (a b : float) : max_number a b = a \/ max_number a b = b.
Proof.
  pose proof (max_number_spec a b) as H. unfold greatest in H.
  destruct (lex_leb _ _); [right|left]; now apply Prim2SF_inj.
Qed.

Lemma min_number_below (a b : float) :
  lex_leb (rank (-3) (Prim2SF (min_number a b))) (rank (-3) (Prim2SF a)) = true /\
  lex_leb (rank (-3) (Prim2SF (min_number a b))) (rank (-3) (Prim2SF b)) = true.
Proof.
  rewrite min_number_spec. unfold least.
  destruct (lex_leb (rank (-3) (Prim2SF a)) (rank (-3) (Prim2SF b))) eqn:H.
  - split; [apply lex_leb_refl|assumption].
  - split; [now apply lex_leb_false|apply lex_leb_refl].
Qed.

Lemma max_number_above (a b : float) :
  lex_leb (rank 3 (Prim2SF a)) (rank 3 (Prim2SF (max_number a b))) = true /\
  lex_leb (rank 3 (Prim2SF b)) (rank 3 (Prim2SF (max_number a b))) = true.
Proof.
  rewrite max_number_spec. unfold greatest.
  destruct (lex_leb (rank 3 (Prim2SF a)) (rank 3 (Prim2SF b))) eqn:H.
  - split; [assumption|apply lex_leb_refl].
  - split; [apply lex_leb_refl|now apply lex_leb_false].
Qed.

(** A fold with [Math.min] ends on one of the numbers, and on one that
    ranks below them all. *)
Lemma fold_min_number (l : list float) :
  forall a,
    In (fold_left min_number l a) (a :: l) /\
    forall y, In y (a :: l) ->
      lex_leb (rank (-3) (Prim2SF (fold_left min_number l a)))
              (rank (-3) (Prim2SF y)) = true.
Proof.
  induction l as [|x l IH]; intros a; simpl.
  - split; [now left|]. intros y [<-|[]]. apply lex_leb_refl.
  - destruct (IH (min_number a x)) as [Hin Hle].
    destruct (min_number_below a x) as [Ha Hx].
    pose proof (Hle _ (or_introl eq_refl)) as Hm.
    split.
    + destruct Hin as [Hin|Hin]; [|auto].
      rewrite <- Hin. destruct (min_number_choice a x) as [-> | ->]; auto.
    + intros y [<-|[<-|Hy]].
      * exact (lex_leb_trans _ _ _ Hm Ha).
      * exact (lex_leb_trans _ _ _ Hm Hx).
      * apply Hle. now right.
Qed.

Lemma fold_max_number (l : list float) :
  forall a,
    In (fold_left max_number l a) (a :: l) /\
    forall y, In y (a :: l) ->
      lex_leb (rank 3 (Prim2SF y))
              (rank 3 (Prim2SF (fold_left max_number l a))) = true.
Proof.
  induction l as [|x l IH]; intros a; simpl.
  - split; [now left|]. intros y [<-|[]]. apply lex_leb_refl.
  - destruct (IH (max_number a x)) as [Hin Hle].
    destruct (max_number_above a x) as [Ha Hx].
    pose proof (Hle _ (or_introl eq_refl)) as Hm.
    split.
    + destruct Hin as [Hin|Hin]; [|auto].
      rewrite <- Hin. destruct (max_number_choice a x) as [-> | ->]; auto.
    + intros y [<-|[<-|Hy]].
      * exact (lex_leb_trans _ _ _ Ha Hm).
      * exact (lex_leb_trans _ _ _ Hx Hm).
      * apply Hle. now right.
Qed.

(** The numbers among values, in order. *)
Definition numbers (values : list Value) : list float :=
  flat_map (fun v => match v with JNum x => [x] | _ => [] end) values.

Definition is_number (v : Value) : bool :=
  match v with JNum _ => true | _ => false end.

Lemma numbers_all (values : list Value) :
  forallb is_number values = true -> values = map JNum (numbers values).
Proof.
  induction values as [|v values IH]; simpl; [reflexivity|].
  destruct v; simpl; try discriminate. intros H. f_equal. auto.
Qed.

Lemma In_values_of (key : string) (l : list (string * Value)) (v : Value) :
  In v (values_of key l) <-> In (key, v) l.
Proof.
  unfold values_of. rewrite in_map_iff. split.
  - intros ([k w] & <- & Hin). apply filter_In in Hin as [Hin Hk].
    simpl in *. apply String.eqb_eq in Hk. now subst.
  - intros Hin. exists (key, v). split; [reflexivity|].
    apply filter_In. split; [assumption|]. simpl. apply String.eqb_refl.
Qed.

Lemma fold_js_add_numbers (host : Host) (xs : list float) :
  forall acc,
    fold_left (js_add host) (map JNum xs) (JNum acc) =
    JNum (fold_left PrimFloat.add xs acc).
Proof. induction xs as [|x xs IH]; intros acc; simpl; [reflexivity|apply IH]. Qed.

Lemma aggregated_min_numbers (host : Host) (a : float) (l : list float) :
  aggregated host "min" (map JNum (a :: l)) = JNum (fold_left min_number l a).
Proof.
  cbn [aggregated map String.eqb Ascii.eqb Bool.eqb].
  rewrite fold_Math_min, map_map. simpl. now rewrite map_id.
Qed.

Lemma aggregated_max_numbers (host : Host) (a : float) (l : list float) :
  aggregated host "max" (map JNum (a :: l)) = JNum (fold_left max_number l a).
Proof.
  cbn [aggregated map String.eqb Ascii.eqb Bool.eqb].
  rewrite fold_Math_max, map_map. simpl. now rewrite map_id.
Qed.

Section NumberSeries.
Variable host : Host.
Variable dateFns : DateFns.
Variable timeseries : list RawPoint.
Variable frequency : string.
Hypothesis frequency_recognized : In frequency frequency_names.
Hypothesis series_valid : valid_series host dateFns timeseries = true.
Hypothesis series_numbers : forallb (fun p => is_number (snd p)) timeseries = true.

Lemma keyed_numbers (key : string) :
  forallb is_number (values_of key (map (keyed_point dateFns frequency) timeseries)) = true.
Proof.
  apply forallb_forall. intros v Hin. apply In_values_of in Hin.
  apply in_map_iff in Hin as (p & [= _ <-] & Hin).
  rewrite forallb_forall in series_numbers. now apply series_numbers.
Qed.

Lemma keyed_number_entry (key : string) (x : float) :
  In x (numbers (values_of key (map (keyed_point dateFns frequency) timeseries))) <->
  exists dateRaw,
    In (dateRaw, JNum x) timeseries /\ period dateFns frequency (dateRaw, JNum x) = key.
Proof.
  pose proof (numbers_all _ (keyed_numbers key)) as Hn.
  split.
  - intros Hin. apply (in_map JNum) in Hin. rewrite <- Hn in Hin.
    apply In_values_of in Hin. apply in_map_iff in Hin as ([dateRaw v] & [= <- ->] & Hin).
    now exists dateRaw.
  - intros (dateRaw & Hin & <-).
    assert (Hv : In (JNum x) (values_of (period dateFns frequency (dateRaw, JNum x))
                                (map (keyed_point dateFns frequency) timeseries))).
    { apply In_values_of.
      change (period dateFns frequency (dateRaw, JNum x), JNum x)
        with (keyed_point dateFns frequency (dateRaw, JNum x)).
      now apply in_map. }
    rewrite Hn in Hv. apply in_map_iff in Hv as (y & [= ->] & Hy). exact Hy.
Qed.

Lemma series_number_valid (dateRaw : string) (x : float) :
  In (dateRaw, JNum x) timeseries -> is_nan x = false.
Proof.
  intros Hin. unfold valid_series in series_valid.
  rewrite forallb_forall in series_valid. specialize (series_valid _ Hin).
  unfold valid_point, isNaN in series_valid. simpl in series_valid.
  apply andb_true_iff in series_valid as [_ H]. now apply negb_true_iff in H.
Qed.

(** The output pairs, by the numbers of their period. *)
Lemma resample_numbers (function : string) (key : string) (value : Value) :
  In function function_names ->
  forall resampled,
    resample host dateFns timeseries
      {| resampleFrequency := Some frequency; resampleFunction := Some function |} =
    Return resampled ->
    In (key, value) resampled ->
    numbers (values_of key (map (keyed_point dateFns frequency) timeseries)) <> [] /\
    value = aggregated host function
              (map JNum (numbers (values_of key
                                    (map (keyed_point dateFns frequency) timeseries)))).
Proof.
  intros Hg resampled Hrun Hin.
  destruct (resample_valid host dateFns timeseries frequency function
              frequency_recognized Hg series_valid) as (o & Ho & Hrun').
  rewrite Hrun' in Hrun. inversion Hrun; subst resampled.
  apply (reduced_In host function _ o key value Ho) in Hin as [Hkey ->].
  rewrite <- (numbers_all _ (keyed_numbers key)). split; [|reflexivity].
  intros E. apply values_of_nil with (key := key) in Hkey; [exact Hkey|].
  rewrite (numbers_all _ (keyed_numbers key)), E. reflexivity.
Qed.
End NumberSeries.

(** The numbers of the entries of a series that resolve to a period key,
    in the order of the series. *)
Definition period_numbers (dateFns : DateFns) (frequency key : string)
  (timeseries : list RawPoint) : list float :=
  numbers (values_of key (map (keyed_point dateFns frequency) timeseries)).

(** On a valid series of numbers, the value that [min] gives a period is a
    number, it is the value of an entry of that period, and it is at most
    the value of every entry of that period. *)
Theorem resample_min_least (host : Host) (dateFns : DateFns)
  (timeseries : list RawPoint) (frequency : string)
  (resampled : list KeyedPoint) (key : string) (value : Value) :
  In frequency frequency_names ->
  valid_series host dateFns timeseries = true ->
  forallb (fun p => is_number (snd p)) timeseries = true ->
  resample host dateFns timeseries
    {| resampleFrequency := Some frequency; resampleFunction := Some "min" |} =
  Return resampled ->
  In (key, value) resampled ->
  exists x,
    value = JNum x /\
    (exists dateRaw,
       In (dateRaw, JNum x) timeseries /\
       period dateFns frequency (dateRaw, JNum x) = key) /\
    (forall dateRaw y,
       In (dateRaw, JNum y) timeseries ->
       period dateFns frequency (dateRaw, JNum y) = key ->
       (x <=? y)%float = true).
Proof.
  intros Hf Hv Hn Hrun Hin.
  destruct (resample_numbers host dateFns timeseries frequency Hf Hv Hn
              "min" key value (or_introl eq_refl) resampled Hrun Hin) as [Hne ->].
  pose proof (keyed_number_entry dateFns timeseries frequency Hn key) as Hentry.
  destruct (numbers _) as [|a l]; [now elim Hne|].
  rewrite aggregated_min_numbers.
  destruct (fold_min_number l a) as [Hmem Hle].
  exists (fold_left min_number l a). split; [reflexivity|]. split.
  - now apply Hentry.
  - intros dateRaw y Hy Hk.
    apply Hentry in Hmem as (d & Hd & _).
    apply (rank_leb (-3)).
    + exact (series_number_valid host dateFns timeseries Hv d _ Hd).
    + exact (series_number_valid host dateFns timeseries Hv dateRaw _ Hy).
    + apply Hle. apply Hentry. now exists dateRaw.
Qed.

Lemma resample_min_least_witness :
  exists x,
    JNum 10 = JNum x /\
    (exists dateRaw,
       In (dateRaw, JNum x)
         [("2017-05-05", JNum 22.5); ("2017-05-20", JNum 10); ("2017-10-10", JNum 44.5)] /\
       period date_fns "monthEnd" (dateRaw, JNum x) = "2017-05-31") /\
    (forall dateRaw y,
       In (dateRaw, JNum y)
         [("2017-05-05", JNum 22.5); ("2017-05-20", JNum 10); ("2017-10-10", JNum 44.5)] ->
       period date_fns "monthEnd" (dateRaw, JNum y) = "2017-05-31" ->
       (x <=? y)%float = true).
Proof.
  apply (resample_min_least IntegerHost.host date_fns
           [("2017-05-05", JNum 22.5); ("2017-05-20", JNum 10); ("2017-10-10", JNum 44.5)]
           "monthEnd"
           [("2017-05-31", JNum 10); ("2017-10-31", JNum 44.5)]
           "2017-05-31" (JNum 10)).
  - simpl. auto.
  - reflexivity.
  - reflexivity.
  - reflexivity.
  - now left.
Defined.

(** On a valid series of numbers, the value that [max] gives a period is a
    number, it is the value of an entry of that period, and it is at least
    the value of every entry of that period. *)
Theorem resample_max_greatest (host : Host) (dateFns : DateFns)
  (timeseries : list RawPoint) (frequency : string)
  (resampled : list KeyedPoint) (key : string) (value : Value) :
  In frequency frequency_names ->
  valid_series host dateFns timeseries = true ->
  forallb (fun p => is_number (snd p)) timeseries = true ->
  resample host dateFns timeseries
    {| resampleFrequency := Some frequency; resampleFunction := Some "max" |} =
  Return resampled ->
  In (key, value) resampled ->
  exists x,
    value = JNum x /\
    (exists dateRaw,
       In (dateRaw, JNum x) timeseries /\
       period dateFns frequency (dateRaw, JNum x) = key) /\
    (forall dateRaw y,
       In (dateRaw, JNum y) timeseries ->
       period dateFns frequency (dateRaw, JNum y) = key ->
       (y <=? x)%float = true).
Proof.
  intros Hf Hv Hn Hrun Hin.
  destruct (resample_numbers host dateFns timeseries frequency Hf Hv Hn
              "max" key value (or_intror (or_introl eq_refl)) resampled Hrun Hin)
    as [Hne ->].
  pose proof (keyed_number_entry dateFns timeseries frequency Hn key) as Hentry.
  destruct (numbers _) as [|a l]; [now elim Hne|].
  rewrite aggregated_max_numbers.
  destruct (fold_max_number l a) as [Hmem Hle].
  exists (fold_left max_number l a). split; [reflexivity|]. split.
  - now apply Hentry.
  - intros dateRaw y Hy Hk.
    apply Hentry in Hmem as (d & Hd & _).
    apply (rank_leb 3).
    + exact (series_number_valid host dateFns timeseries Hv dateRaw _ Hy).
    + exact (series_number_valid host dateFns timeseries Hv d _ Hd).
    + apply Hle. apply Hentry. now exists dateRaw.
Qed.

Lemma resample_max_greatest_witness :
  exists x,
    JNum 22.5 = JNum x /\
    (exists dateRaw,
       In (dateRaw, JNum x)
         [("2017-05-05", JNum 22.5); ("2017-05-20", JNum 10); ("2017-10-10", JNum 44.5)] /\
       period date_fns "monthEnd" (dateRaw, JNum x) = "2017-05-31") /\
    (forall dateRaw y,
       In (dateRaw, JNum y)
         [("2017-05-05", JNum 22.5); ("2017-05-20", JNum 10); ("2017-10-10", JNum 44.5)] ->
       period date_fns "monthEnd" (dateRaw, JNum y) = "2017-05-31" ->
       (y <=? x)%float = true).
Proof.
  apply (resample_max_greatest IntegerHost.host date_fns
           [("2017-05-05", JNum 22.5); ("2017-05-20", JNum 10); ("2017-10-10", JNum 44.5)]
           "monthEnd"
           [("2017-05-31", JNum 22.5); ("2017-10-31", JNum 44.5)]
           "2017-05-31" (JNum 22.5)).
  - simpl. auto.
  - reflexivity.
  - reflexivity.
  - reflexivity.
  - now left.
Defined.

(** On a valid series of numbers, the value that [sum] gives a period is
    the number reached from +0 by adding the values of the entries of that
    period one after the other, in the order of the series. *)
Theorem resample_sum_in_order (host : Host) (dateFns : DateFns)
  (timeseries : list RawPoint) (frequency : string)
  (resampled : list KeyedPoint) (key : string) (value : Value) :
  In frequency frequency_names ->
  valid_series host dateFns timeseries = true ->
  forallb (fun p => is_number (snd p)) timeseries = true ->
  resample host dateFns timeseries
    {| resampleFrequency := Some frequency; resampleFunction := Some "sum" |} =
  Return resampled ->
  In (key, value) resampled ->
  value = JNum (fold_left PrimFloat.add
                  (period_numbers dateFns frequency key timeseries) zero).
Proof.
  intros Hf Hv Hn Hrun Hin.
  destruct (resample_numbers host dateFns timeseries frequency Hf Hv Hn
              "sum" key value (or_intror (or_intror (or_introl eq_refl)))
              resampled Hrun Hin) as [Hne ->].
  unfold period_numbers.
  destruct (numbers _) as [|a l]; [now elim Hne|].
  cbn [aggregated map String.eqb Ascii.eqb Bool.eqb].
  exact (fold_js_add_numbers host (a :: l) zero).
Qed.

Lemma resample_sum_in_order_witness :
  JNum 32.5 =
  JNum (fold_left PrimFloat.add
          (period_numbers date_fns "monthEnd" "2017-05-31"
             [("2017-05-05", JNum 22.5); ("2017-05-20", JNum 10); ("2017-10-10", JNum 44.5)])
          zero).
Proof.
  apply (resample_sum_in_order IntegerHost.host date_fns
           [("2017-05-05", JNum 22.5); ("2017-05-20", JNum 10); ("2017-10-10", JNum 44.5)]
           "monthEnd"
           [("2017-05-31", JNum 32.5); ("2017-10-31", JNum 44.5)]
           "2017-05-31" (JNum 32.5)).
  - simpl. auto.
  - reflexivity.
  - reflexivity.
  - reflexivity.
  - now left.
Defined.

(** ** Values that are texts *)

Lemma fold_js_add_text (host : Host) (values : list Value) :
  forall acc,
    (exists s, acc = JStr s) \/ (exists s, In (JStr s) values) ->
    exists t, fold_left (js_add host) values acc = JStr t.
Proof.
  induction values as [|v values IH]; intros acc H; simpl.
  - destruct H as [H|[s []]]. exact H.
  - apply IH. destruct H as [[s ->]|[s [->|Hin]]].
    + left. destruct v; simpl; eauto.
    + left. destruct acc; simpl; eauto.
    + right. eauto.
Qed.

(** With [sum], a period that holds an entry whose value is a text gets a
    text for its value, the concatenation that [+] makes of it: the entry
    passes [cleanTimeSeries] unconverted and is never converted after. *)
Theorem resample_sum_text (host : Host) (dateFns : DateFns)
  (timeseries : list RawPoint) (frequency dateRaw s : string) :
  In frequency frequency_names ->
  valid_series host dateFns timeseries = true ->
  In (dateRaw, JStr s) timeseries ->
  exists resampled t,
    resample host dateFns timeseries
      {| resampleFrequency := Some frequency; resampleFunction := Some "sum" |} =
    Return resampled /\
    In (period dateFns frequency (dateRaw, JStr s), JStr t) resampled.
Proof.
  intros Hf Hv Hin.
  destruct (resample_valid host dateFns timeseries frequency "sum" Hf
              (or_intror (or_intror (or_introl eq_refl))) Hv) as (o & Ho & Hrun).
  set (key := period dateFns frequency (dateRaw, JStr s)).
  set (l := map (keyed_point dateFns frequency) timeseries) in *.
  assert (Hk : In (key, JStr s) l).
  { change (key, JStr s) with (keyed_point dateFns frequency (dateRaw, JStr s)).
    now apply in_map. }
  assert (Hvs : In (JStr s) (values_of key l)) by now apply In_values_of.
  assert (Ht : exists t, aggregated host "sum" (values_of key l) = JStr t).
  { destruct (values_of key l) as [|first rest] eqn:E; [destruct Hvs|].
    cbn [aggregated String.eqb Ascii.eqb Bool.eqb].
    apply fold_js_add_text. right. now exists s. }
  destruct Ht as [t Ht].
  exists (reduced host "sum" o), t. split; [exact Hrun|].
  apply (reduced_In host "sum" l o key (JStr t) Ho). split.
  - change key with (fst (key, JStr s)). now apply in_map.
  - now rewrite Ht.
Qed.

Lemma resample_sum_text_witness :
  exists resampled t,
    resample IntegerHost.host date_fns
      [("2017-05-05", JNum 2); ("2017-05-20", JStr "5")]
      {| resampleFrequency := Some "monthEnd"; resampleFunction := Some "sum" |} =
    Return resampled /\
    In (period date_fns "monthEnd" ("2017-05-20", JStr "5"), JStr t) resampled.
Proof.
  apply (resample_sum_text IntegerHost.host date_fns
           [("2017-05-05", JNum 2); ("2017-05-20", JStr "5")] "monthEnd" "2017-05-20" "5").
  - simpl. auto.
  - reflexivity.
  - right. now left.
Defined.

Example resample_sum_number_and_text :
  resample IntegerHost.host date_fns
    [("2017-05-05", JNum 2); ("2017-05-20", JStr "5")]
    {| resampleFrequency := Some "monthEnd"; resampleFunction := Some "sum" |} =
  Return [("2017-05-31", JStr "25")].
Proof. reflexivity. Qed.

(** With [min] or [max], a period of one entry gets the value of that
    entry as it was posted, a text staying a text, while a period of
    several entries always gets a number: [reduce] calls [Math.min] or
    [Math.max], which convert, only from the second value on. *)
Theorem resample_lone_value (host : Host) (dateFns : DateFns)
  (timeseries : list RawPoint) (frequency function : string)
  (resampled : list KeyedPoint) (key : string) (value : Value) :
  In frequency frequency_names ->
  function = "min" \/ function = "max" ->
  valid_series host dateFns timeseries = true ->
  resample host dateFns timeseries
    {| resampleFrequency := Some frequency; resampleFunction := Some function |} =
  Return resampled ->
  In (key, value) resampled ->
  match values_of key (map (keyed_point dateFns frequency) timeseries) with
  | [only] => value = only
  | _ => is_number value = true
  end.
Proof.
  intros Hf Hg Hv Hrun Hin.
  assert (Hgin : In function function_names)
    by (destruct Hg as [-> | ->]; simpl; auto).
  destruct (resample_valid host dateFns timeseries frequency function Hf Hgin Hv)
    as (o & Ho & Hrun').
  rewrite Hrun' in Hrun. inversion Hrun; subst resampled.
  apply (reduced_In host function _ o key value Ho) in Hin as [Hkey ->].
  destruct (values_of key (map (keyed_point dateFns frequency) timeseries))
    as [|a [|b l]] eqn:E.
  - apply values_of_nil in E. contradiction.
  - destruct Hg as [-> | ->]; reflexivity.
  - destruct Hg as [-> | ->]; cbn [aggregated String.eqb Ascii.eqb Bool.eqb].
    + now rewrite reduce_Math_min.
    + now rewrite reduce_Math_max.
Qed.

Lemma resample_lone_value_witness :
  match values_of "2017-10-31"
          (map (keyed_point date_fns "monthEnd")
             [("2017-05-05", JStr "7"); ("2017-05-20", JStr "5"); ("2017-10-10", JStr "3")])
  with
  | [only] => JStr "3" = only
  | _ => is_number (JStr "3") = true
  end.
Proof.
  apply (resample_lone_value IntegerHost.host date_fns
           [("2017-05-05", JStr "7"); ("2017-05-20", JStr "5"); ("2017-10-10", JStr "3")]
           "monthEnd" "min"
           [("2017-05-31", JNum 5); ("2017-10-31", JStr "3")]
           "2017-10-31" (JStr "3")).
  - simpl. auto.
  - now left.
  - reflexivity.
  - reflexivity.
  - right. now left.
Defined.
